(** * EC2 & S3 usage dashboard ([app.py]): cleaning, filtering, aggregation
      and optimisation insights.

    The script is a straight-line pandas program.  A frame is the list of its
    rows in index order, a column ([df[col]]) is the list of one field, a
    boolean mask is a [list bool], and [df[mask]] keeps the rows whose mask
    entry is [True].  A float64 cell is an exact rational or NaN; the two
    group-by lines, whose results depend on the rounding of the additions,
    are also given on IEEE doubles, in [F64]. *)

From Stdlib Require Import String Ascii List Bool Arith ZArith QArith Qround.
From Stdlib Require Import Lqa Lia Permutation Sorted OrdersEx RelationClasses.
From Stdlib Require PrimFloat Uint63.
Import ListNotations.

Open Scope Q_scope.

(** ** float64 cells: a rational, or NaN *)

Module Float.

Definition float : Type := option Q.

Definition NaN : float := None.

Definition isna (x : float) : bool :=
  match x with None => true | Some _ => false end.

Definition lift2 (f : Q -> Q -> Q) (x y : float) : float :=
  match x, y with
  | Some a, Some b => Some (f a b)
  | _, _ => NaN
  end.

Definition add := lift2 Qplus.
Definition sub := lift2 Qminus.
Definition mul := lift2 Qmult.

(* every comparison with NaN is False *)
Definition cmp (f : Q -> Q -> bool) (x y : float) : bool :=
  match x, y with
  | Some a, Some b => f a b
  | _, _ => false
  end.

Definition Qlt_bool (a b : Q) : bool := negb (Qle_bool b a).

Definition le := cmp Qle_bool.
Definition ge := cmp (fun a b => Qle_bool b a).
Definition lt := cmp Qlt_bool.
Definition gt := cmp (fun a b => Qlt_bool b a).

(** Equality of cells up to the value of the rational. *)
Definition feq (x y : float) : Prop :=
  match x, y with
  | Some a, Some b => a == b
  | None, None => True
  | _, _ => False
  end.

End Float.

Import Float.

(** ** Series: one column of a frame *)

Module Series.

(** [s.fillna(v)] *)
Definition fillna (s : list float) (v : float) : list float :=
  map (fun x => if isna x then v else x) s.

(** [s.dropna()] as plain rationals *)
Fixpoint dropna (s : list float) : list Q :=
  match s with
  | [] => []
  | Some a :: s' => a :: dropna s'
  | None :: s' => dropna s'
  end.

Fixpoint insert_asc (a : Q) (l : list Q) : list Q :=
  match l with
  | [] => [a]
  | b :: l' => if Qle_bool a b then a :: l else b :: insert_asc a l'
  end.

(** the non-missing values in ascending order *)
Definition sorted_values (s : list float) : list Q :=
  fold_right insert_asc [] (dropna s).

(** [s.median()]: NaN are skipped; the middle value, or the mean of the two
    middle values. *)
Definition median (s : list float) : float :=
  let v := sorted_values s in
  let n := length v in
  match n with
  | O => NaN
  | _ =>
      if Nat.odd n then Some (nth (n / 2) v 0)
      else Some ((nth (n / 2 - 1) v 0 + nth (n / 2) v 0) / 2)
  end.

(** [s.quantile(q)], linear interpolation between the closest ranks. *)
Definition quantile (s : list float) (q : Q) : float :=
  let v := sorted_values s in
  let n := length v in
  match n with
  | O => NaN
  | _ =>
      let h := inject_Z (Z.of_nat (n - 1)) * q in
      let i := Qfloor h in
      let lo := nth (Z.to_nat i) v 0 in
      let hi := nth (Nat.min (Z.to_nat i + 1) (n - 1)) v 0 in
      Some (lo + (hi - lo) * (h - inject_Z i))
  end.

(** [s.sum()]: NaN are skipped, the empty sum is 0. *)
Definition sum (s : list float) : float :=
  Some (fold_right Qplus 0 (dropna s)).

(** [s.mean()]: NaN are skipped, NaN when nothing is left. *)
Definition mean (s : list float) : float :=
  match dropna s with
  | [] => NaN
  | v => Some (fold_right Qplus 0 v / inject_Z (Z.of_nat (length v)))
  end.

(** [s.isin(values)] on a column of strings *)
Definition isin (s : list string) (values : list string) : list bool :=
  map (fun x => existsb (String.eqb x) values) s.

(** [a & b] on two masks *)
Fixpoint mask_and (a b : list bool) : list bool :=
  match a, b with
  | x :: a', y :: b' => (x && y) :: mask_and a' b'
  | _, _ => []
  end.

(** [a & True]: a Python scalar is broadcast *)
Definition mask_and_scalar (a : list bool) (b : bool) : list bool :=
  map (fun x => x && b) a.

End Series.

(** ** Boolean indexing [df[mask]] *)

Fixpoint bool_index {A : Type} (df : list A) (mask : list bool) : list A :=
  match df, mask with
  | r :: df', true :: m' => r :: bool_index df' m'
  | _ :: df', false :: m' => bool_index df' m'
  | _, _ => []
  end.

(** [df[col] = s]: the rows are paired with the new column by position. *)
Definition assign {A B : Type} (set : A -> float -> B) (df : list A) (s : list float)
  : list B :=
  map (fun p => set (fst p) (snd p)) (combine df s).

(** [df.head(n)] *)
Definition head {A : Type} (n : nat) (df : list A) : list A := firstn n df.

(** ** Ordering rows by a float column, largest first, NaN last *)

(** [goes_before x y]: a row with cell [x] may stand before a row with cell
    [y] in descending order with NaN last. *)
Definition goes_before (x y : float) : bool :=
  match x, y with
  | Some a, Some b => Qle_bool b a
  | Some _, None => true
  | None, None => true
  | None, Some _ => false
  end.

Section StableSort.
Context {A : Type} (key : A -> float).

Fixpoint insert_desc (x : A) (l : list A) : list A :=
  match l with
  | [] => [x]
  | y :: l' =>
      if goes_before (key x) (key y) then x :: l else y :: insert_desc x l'
  end.

(** Stable: a row is inserted in front of the rows after it in the frame
    that tie with it. *)
Definition stable_sort_desc (df : list A) : list A :=
  fold_right insert_desc [] df.

(** [df.nlargest(n, col)] with the default [keep='first']: the first [n]
    rows of the frame in descending order of [col], ties in frame order. *)
Definition nlargest (n : nat) (df : list A) : list A :=
  head n (stable_sort_desc df).

End StableSort.

(** [df.sort_values(col, ascending=False)] with the default sort kind, which
    does not promise an order among ties: any descending arrangement of the
    rows, NaN last. *)
Class SortValues : Type := {
  sort_values : forall {A : Type}, (A -> float) -> list A -> list A;
  sort_values_perm :
    forall (A : Type) (key : A -> float) (df : list A),
      Permutation df (sort_values key df);
  sort_values_sorted :
    forall (A : Type) (key : A -> float) (df : list A),
      Sorted (fun r1 r2 => goes_before (key r1) (key r2) = true)
             (sort_values key df)
}.

(** ** [df.groupby(by)[col].agg().reset_index()] *)

Section GroupBy.
Context {A : Type} (by_ : A -> string) (val : A -> float).

Fixpoint insert_key (k : string) (ks : list string) : list string :=
  match ks with
  | [] => [k]
  | k' :: ks' =>
      match String_as_OT.compare k k' with
      | Lt => k :: ks
      | Eq => ks
      | Gt => k' :: insert_key k ks'
      end
  end.

(** the distinct group keys, sorted (groupby's default [sort=True]) *)
Definition group_keys (df : list A) : list string :=
  fold_right insert_key [] (map by_ df).

Definition group (k : string) (df : list A) : list float :=
  map val (filter (fun r => String.eqb (by_ r) k) df).

Definition groupby_agg (agg : list float -> float) (df : list A)
  : list (string * float) :=
  map (fun k => (k, agg (group k df))) (group_keys df).

Definition group_mean := groupby_agg Series.mean.
Definition group_sum := groupby_agg Series.sum.

End GroupBy.

(** ** The two record sets *)

Module EC2.

Record row : Type := {
  ResourceId : string;
  InstanceType : string;
  Region : string;
  State : string;
  CPUUtilization : float;
  MemoryUtilization : float;
  CostUSD : float;
  CreationDate : Z
}.

Definition set_CPUUtilization (r : row) (v : float) : row :=
  {| ResourceId := ResourceId r; InstanceType := InstanceType r;
     Region := Region r; State := State r;
     CPUUtilization := v; MemoryUtilization := MemoryUtilization r;
     CostUSD := CostUSD r; CreationDate := CreationDate r |}.

Definition set_MemoryUtilization (r : row) (v : float) : row :=
  {| ResourceId := ResourceId r; InstanceType := InstanceType r;
     Region := Region r; State := State r;
     CPUUtilization := CPUUtilization r; MemoryUtilization := v;
     CostUSD := CostUSD r; CreationDate := CreationDate r |}.

Definition set_CostUSD (r : row) (v : float) : row :=
  {| ResourceId := ResourceId r; InstanceType := InstanceType r;
     Region := Region r; State := State r;
     CPUUtilization := CPUUtilization r;
     MemoryUtilization := MemoryUtilization r;
     CostUSD := v; CreationDate := CreationDate r |}.

(** a row of [underutilized_ec2] once the column SavingsPerHour exists *)
Record savings_row : Type := {
  base : row;
  SavingsPerHour : float
}.

(** [[['ResourceId', 'InstanceType', 'Region', 'CostUSD']]] *)
Definition top_columns (r : row) : string * string * string * float :=
  (ResourceId r, InstanceType r, Region r, CostUSD r).

End EC2.

Module S3.

Record row : Type := {
  BucketName : string;
  Region : string;
  StorageClass : string;
  TotalSizeGB : float;
  ObjectCount : Z;
  CostUSD : float;
  CreationDate : Z
}.

Definition set_CostUSD (r : row) (v : float) : row :=
  {| BucketName := BucketName r; Region := Region r;
     StorageClass := StorageClass r; TotalSizeGB := TotalSizeGB r;
     ObjectCount := ObjectCount r; CostUSD := v;
     CreationDate := CreationDate r |}.

Definition set_TotalSizeGB (r : row) (v : float) : row :=
  {| BucketName := BucketName r; Region := Region r;
     StorageClass := StorageClass r; TotalSizeGB := v;
     ObjectCount := ObjectCount r; CostUSD := CostUSD r;
     CreationDate := CreationDate r |}.

(** a row of [expensive_s3] once the column MonthlySavings exists *)
Record savings_row : Type := {
  base : row;
  MonthlySavings : float
}.

(** [[['BucketName', 'Region', 'TotalSizeGB', 'CostUSD']]] *)
Definition top_columns (r : row) : string * string * float * float :=
  (BucketName r, Region r, TotalSizeGB r, CostUSD r).

End S3.

(** ** DATA CLEANING (lines 53-70) *)

(** lines 53-55 *)
Definition clean_ec2 (df_ec2 : list EC2.row) : list EC2.row :=
  let df_ec2 :=
    assign EC2.set_CPUUtilization df_ec2
      (Series.fillna (map EC2.CPUUtilization df_ec2)
         (Series.median (map EC2.CPUUtilization df_ec2))) in
  let df_ec2 :=
    assign EC2.set_MemoryUtilization df_ec2
      (Series.fillna (map EC2.MemoryUtilization df_ec2)
         (Series.median (map EC2.MemoryUtilization df_ec2))) in
  let df_ec2 :=
    assign EC2.set_CostUSD df_ec2
      (Series.fillna (map EC2.CostUSD df_ec2) (Some 0)) in
  df_ec2.

(** lines 57-58 *)
Definition clean_s3 (df_s3 : list S3.row) : list S3.row :=
  let df_s3 :=
    assign S3.set_CostUSD df_s3
      (Series.fillna (map S3.CostUSD df_s3) (Some 0)) in
  let df_s3 :=
    assign S3.set_TotalSizeGB df_s3
      (Series.fillna (map S3.TotalSizeGB df_s3) (Some 0)) in
  df_s3.

(** lines 61-67 *)
Definition remove_outliers {A : Type} (df : list A) (col : A -> float) : list A :=
  let Q1 := Series.quantile (map col df) 0.25 in
  let Q3 := Series.quantile (map col df) 0.75 in
  let IQR := Float.sub Q3 Q1 in
  let lower := Float.sub Q1 (Float.mul (Some 1.5) IQR) in
  let upper := Float.add Q3 (Float.mul (Some 1.5) IQR) in
  bool_index df
    (Series.mask_and (map (fun x => Float.ge x lower) (map col df))
                     (map (fun x => Float.le x upper) (map col df))).

(** The globals bound when the cleaning part has run (line 70). *)
Record cleaned : Type := {
  df_ec2 : list EC2.row;
  df_s3 : list S3.row;
  df_ec2_clean : list EC2.row;
  df_s3_clean : list S3.row
}.

Definition data_cleaning (raw_ec2 : list EC2.row) (raw_s3 : list S3.row) : cleaned :=
  let df_ec2 := clean_ec2 raw_ec2 in
  let df_s3 := clean_s3 raw_s3 in
  {| df_ec2 := df_ec2;
     df_s3 := df_s3;
     df_ec2_clean := remove_outliers df_ec2 EC2.CostUSD;
     df_s3_clean := remove_outliers df_s3 S3.TotalSizeGB |}.

(** What running lines 53-70 does: the four globals are bound, or an
    exception propagates.  The lines hold no [raise], and on a frame that has
    the columns [fillna], [median], [quantile], the comparisons and the
    indexing raise nothing: the median and the quantiles of a column with no
    value are NaN. *)
Inductive outcome : Type :=
| Bound (g : cleaned)
| Raised (exception : string).

Definition run_data_cleaning (raw_ec2 : list EC2.row) (raw_s3 : list S3.row) : outcome :=
  Bound (data_cleaning raw_ec2 raw_s3).

(** ** SIDEBAR FILTERS (lines 77-94) *)

(** What the five multiselect widgets return. *)
Record selection : Type := {
  ec2_regions : list string;
  ec2_states : list string;
  ec2_types : list string;
  s3_regions : list string;
  s3_classes : list string
}.

(** [df[col].unique()]: the distinct values in order of first appearance *)
Fixpoint unique (s : list string) : list string :=
  match s with
  | [] => []
  | x :: s' => x :: filter (fun y => negb (String.eqb y x)) (unique s')
  end.

(** the selection when the user touches no widget ([sidebar_defaults] below
    adds the raise of line 78 when "running" is not an option) *)
Definition default_selection (df_ec2 : list EC2.row) (df_s3 : list S3.row) : selection :=
  {| ec2_regions := unique (map EC2.Region df_ec2);
     ec2_states := ["running"%string];
     ec2_types := [];
     s3_regions := unique (map S3.Region df_s3);
     s3_classes := [] |}.

(** lines 85-89. [x if ec2_types else True]: an empty list is falsy, and the
    scalar [True] is broadcast over the mask. *)
Definition filtered_ec2_of (df_ec2 : list EC2.row) (w : selection) : list EC2.row :=
  bool_index df_ec2
    (let m :=
       Series.mask_and (Series.isin (map EC2.Region df_ec2) (ec2_regions w))
                       (Series.isin (map EC2.State df_ec2) (ec2_states w)) in
     match ec2_types w with
     | [] => Series.mask_and_scalar m true
     | _ :: _ => Series.mask_and m (Series.isin (map EC2.InstanceType df_ec2) (ec2_types w))
     end).

(** lines 91-94 *)
Definition filtered_s3_of (df_s3 : list S3.row) (w : selection) : list S3.row :=
  bool_index df_s3
    (let m := Series.isin (map S3.Region df_s3) (s3_regions w) in
     match s3_classes w with
     | [] => Series.mask_and_scalar m true
     | _ :: _ => Series.mask_and m (Series.isin (map S3.StorageClass df_s3) (s3_classes w))
     end).

(** ** COMPUTATIONS (lines 99-103) *)

Definition top5_ec2_of (filtered_ec2 : list EC2.row) :=
  map EC2.top_columns (nlargest EC2.CostUSD 5 filtered_ec2).

Definition top5_s3_of (filtered_s3 : list S3.row) :=
  map S3.top_columns (nlargest S3.TotalSizeGB 5 filtered_s3).

Definition avg_cost_region_of (filtered_ec2 : list EC2.row) : list (string * float) :=
  group_mean EC2.Region EC2.CostUSD filtered_ec2.

Definition total_storage_region_of (filtered_s3 : list S3.row) : list (string * float) :=
  group_sum S3.Region S3.TotalSizeGB filtered_s3.

(** ** DATA-DRIVEN OPTIMIZATION INSIGHTS (lines 109-122) *)

(** lines 109-112: the first binding of [underutilized_ec2] *)
Definition underutilized_select (filtered_ec2 : list EC2.row) : list EC2.row :=
  bool_index filtered_ec2
    (Series.mask_and
       (map (fun x => Float.lt x (Some 20)) (map EC2.CPUUtilization filtered_ec2))
       (map (fun x => String.eqb x "running") (map EC2.State filtered_ec2))).

(** line 113: the new column SavingsPerHour *)
Definition underutilized_savings (underutilized_ec2 : list EC2.row) : list EC2.savings_row :=
  assign EC2.Build_savings_row underutilized_ec2
    (map (fun x => Float.mul x (Some 0.5)) (map EC2.CostUSD underutilized_ec2)).

(** line 114: [underutilized_ec2] is bound again, to the ten first rows *)
Definition underutilized_top `{SortValues} (underutilized_ec2 : list EC2.savings_row)
  : list EC2.savings_row :=
  head 10 (sort_values EC2.SavingsPerHour underutilized_ec2).

(** lines 117-120: the first binding of [expensive_s3] *)
Definition expensive_select (filtered_s3 : list S3.row) : list S3.row :=
  bool_index filtered_s3
    (Series.mask_and
       (map (fun x => String.eqb x "STANDARD") (map S3.StorageClass filtered_s3))
       (map (fun x => Float.gt x (Some 100)) (map S3.TotalSizeGB filtered_s3))).

(** line 121: the new column MonthlySavings *)
Definition expensive_savings (expensive_s3 : list S3.row) : list S3.savings_row :=
  assign S3.Build_savings_row expensive_s3
    (map (fun x => Float.mul x (Some 0.01)) (map S3.TotalSizeGB expensive_s3)).

(** line 122: [expensive_s3] is bound again, to the ten first rows *)
Definition expensive_top `{SortValues} (expensive_s3 : list S3.savings_row)
  : list S3.savings_row :=
  head 10 (sort_values S3.MonthlySavings expensive_s3).

(** ** TAB 5 (lines 216-217 and 233-234): the headline totals, bound only
    when the table is not empty *)

Definition total_savings_hr_of (underutilized_ec2 : list EC2.savings_row) : option float :=
  match underutilized_ec2 with
  | [] => None
  | _ :: _ => Some (Series.sum (map EC2.SavingsPerHour underutilized_ec2))
  end.

Definition total_savings_mo_of (expensive_s3 : list S3.savings_row) : option float :=
  match expensive_s3 with
  | [] => None
  | _ :: _ => Some (Series.sum (map S3.MonthlySavings expensive_s3))
  end.

(** ** The run of the script after the cleaning part *)

(** The globals bound after line 70 that the page shows. *)
Record derived : Type := {
  filtered_ec2 : list EC2.row;
  filtered_s3 : list S3.row;
  top5_ec2 : list (string * string * string * float);
  top5_s3 : list (string * string * float * float);
  avg_cost_region : list (string * float);
  total_storage_region : list (string * float);
  underutilized_ec2 : list EC2.savings_row;
  expensive_s3 : list S3.savings_row;
  kpi_ec2_instances : nat;
  kpi_s3_buckets : nat;
  kpi_total_ec2_cost : float;
  kpi_total_s3_storage : float;
  total_savings_hr : option float;
  total_savings_mo : option float
}.

(** Lines 85-251, reading the globals [g] left by the cleaning part: what
    each name is bound to when the lines run to their end on frames whose
    columns have the types of [EC2.row] and [S3.row].  The names bound twice
    in the script are bound twice here. *)
Definition downstream `{SortValues} (g : cleaned) (w : selection) : derived :=
  let filtered_ec2 := filtered_ec2_of (df_ec2 g) w in
  let filtered_s3 := filtered_s3_of (df_s3 g) w in
  let top5_ec2 := top5_ec2_of filtered_ec2 in
  let top5_s3 := top5_s3_of filtered_s3 in
  let avg_cost_region := avg_cost_region_of filtered_ec2 in
  let total_storage_region := total_storage_region_of filtered_s3 in
  let underutilized_ec2 := underutilized_select filtered_ec2 in
  let underutilized_ec2 := underutilized_savings underutilized_ec2 in
  let underutilized_ec2 := underutilized_top underutilized_ec2 in
  let expensive_s3 := expensive_select filtered_s3 in
  let expensive_s3 := expensive_savings expensive_s3 in
  let expensive_s3 := expensive_top expensive_s3 in
  {| filtered_ec2 := filtered_ec2;
     filtered_s3 := filtered_s3;
     top5_ec2 := top5_ec2;
     top5_s3 := top5_s3;
     avg_cost_region := avg_cost_region;
     total_storage_region := total_storage_region;
     underutilized_ec2 := underutilized_ec2;
     expensive_s3 := expensive_s3;
     kpi_ec2_instances := length filtered_ec2;
     kpi_s3_buckets := length filtered_s3;
     kpi_total_ec2_cost := Series.sum (map EC2.CostUSD filtered_ec2);
     kpi_total_s3_storage := Series.sum (map S3.TotalSizeGB filtered_s3);
     total_savings_hr := total_savings_hr_of underutilized_ec2;
     total_savings_mo := total_savings_mo_of expensive_s3 |}.

(** The whole script, from the two loaded record sets and the widgets. *)
Definition script `{SortValues} (raw_ec2 : list EC2.row) (raw_s3 : list S3.row)
  (w : selection) : cleaned * derived :=
  let g := data_cleaning raw_ec2 raw_s3 in
  (g, downstream g w).

(** ** Row-wise readings of the masks *)

Definition isin_b (x : string) (values : list string) : bool :=
  existsb (String.eqb x) values.

(** the Filter Engine predicate on a compute row *)
Definition ec2_passes (w : selection) (r : EC2.row) : bool :=
  isin_b (EC2.Region r) (ec2_regions w)
  && isin_b (EC2.State r) (ec2_states w)
  && match ec2_types w with
     | [] => true
     | _ :: _ => isin_b (EC2.InstanceType r) (ec2_types w)
     end.

(** the Filter Engine predicate on a storage row *)
Definition s3_passes (w : selection) (r : S3.row) : bool :=
  isin_b (S3.Region r) (s3_regions w)
  && match s3_classes w with
     | [] => true
     | _ :: _ => isin_b (S3.StorageClass r) (s3_classes w)
     end.

Definition is_underutilized (r : EC2.row) : bool :=
  Float.lt (EC2.CPUUtilization r) (Some 20) && String.eqb (EC2.State r) "running".

Definition is_oversized (r : S3.row) : bool :=
  String.eqb (S3.StorageClass r) "STANDARD" && Float.gt (S3.TotalSizeGB r) (Some 100).

(** the fences of [remove_outliers] on a column *)
Definition fences (s : list float) : float * float :=
  let Q1 := Series.quantile s 0.25 in
  let Q3 := Series.quantile s 0.75 in
  let IQR := Float.sub Q3 Q1 in
  (Float.sub Q1 (Float.mul (Some 1.5) IQR), Float.add Q3 (Float.mul (Some 1.5) IQR)).

Definition within (f : float * float) (x : float) : bool :=
  Float.ge x (fst f) && Float.le x (snd f).

(** [l1] is [l2] with some rows left out: same rows, same order. *)
Inductive Subseq {A : Type} : list A -> list A -> Prop :=
| Subseq_nil : Subseq [] []
| Subseq_skip (x : A) (l1 l2 : list A) : Subseq l1 l2 -> Subseq l1 (x :: l2)
| Subseq_keep (x : A) (l1 l2 : list A) : Subseq l1 l2 -> Subseq (x :: l1) (x :: l2).

(** ** Vocabulary of the statements *)

(** one cell of [s.fillna(v)] *)
Definition filled (v x : float) : float := if isna x then v else x.

(** a column with no value at all *)
Definition all_missing (s : list float) : Prop := Forall (fun x => x = NaN) s.


(** The rows passing the selection of each heuristic, with their savings,
    before line 114 (resp. 122) sorts and truncates them. *)
Definition qualifying_ec2 (d : derived) : list EC2.savings_row :=
  underutilized_savings (underutilized_select (filtered_ec2 d)).

Definition qualifying_s3 (d : derived) : list S3.savings_row :=
  expensive_savings (expensive_select (filtered_s3 d)).

(** The headline total as the specification words it: the sum of the savings
    over every qualifying row. *)
Definition headline_hr_sums_all_qualifying (d : derived) : Prop :=
  match total_savings_hr d with
  | Some t => feq t (Series.sum (map EC2.SavingsPerHour (qualifying_ec2 d)))
  | None => qualifying_ec2 d = []
  end.

(** The Filter Engine, the Aggregator and the Optimization Advisor applied to
    the two imputed views, with nothing else to read. *)
Definition stages_on_imputed `{SortValues}
  (imputed_ec2 : list EC2.row) (imputed_s3 : list S3.row) (w : selection) : derived :=
  let view_ec2 := filtered_ec2_of imputed_ec2 w in
  let view_s3 := filtered_s3_of imputed_s3 w in
  let table_ec2 := underutilized_top (underutilized_savings (underutilized_select view_ec2)) in
  let table_s3 := expensive_top (expensive_savings (expensive_select view_s3)) in
  {| filtered_ec2 := view_ec2;
     filtered_s3 := view_s3;
     top5_ec2 := top5_ec2_of view_ec2;
     top5_s3 := top5_s3_of view_s3;
     avg_cost_region := avg_cost_region_of view_ec2;
     total_storage_region := total_storage_region_of view_s3;
     underutilized_ec2 := table_ec2;
     expensive_s3 := table_s3;
     kpi_ec2_instances := length view_ec2;
     kpi_s3_buckets := length view_s3;
     kpi_total_ec2_cost := Series.sum (map EC2.CostUSD view_ec2);
     kpi_total_s3_storage := Series.sum (map S3.TotalSizeGB view_s3);
     total_savings_hr := total_savings_hr_of table_ec2;
     total_savings_mo := total_savings_mo_of table_s3 |}.

(** ** Example frames *)

(** Scenario 1 of the specification: A, B and C. *)
Definition scenario1 : list EC2.row :=
  [ EC2.Build_row "A" "m5.large" "us-east-1" "running" (Some 10) (Some 50) (Some 100) 0;
    EC2.Build_row "B" "m5.large" "us-east-1" "running" (Some 50) (Some 50) (Some 80) 0;
    EC2.Build_row "C" "m5.large" "us-east-1" "stopped" (Some 5) (Some 50) (Some 40) 0 ].

(** Scenario 2 of the specification: X, Y and Z. *)
Definition scenario2 : list S3.row :=
  [ S3.Build_row "X" "us-east-1" "STANDARD" (Some 150) 1 (Some 10) 0;
    S3.Build_row "Y" "us-east-1" "STANDARD" (Some 50) 1 (Some 5) 0;
    S3.Build_row "Z" "us-east-1" "GLACIER" (Some 500) 1 (Some 20) 0 ].

(** A compute row whose three numeric columns are empty. *)
Definition blank_ec2 : EC2.row :=
  EC2.Build_row "i-0" "t3.micro" "us-east-1" "running" NaN NaN NaN 0.

(** A storage row with no size and no cost. *)
Definition blank_s3 : S3.row :=
  S3.Build_row "b-0" "us-east-1" "STANDARD" NaN 0 NaN 0.

(** Two compute rows, one of them without CPU and memory readings. *)
Definition half_read_ec2 : list EC2.row :=
  [ EC2.Build_row "i-1" "m5.large" "us-east-1" "running" (Some 35) (Some 60) NaN 0;
    EC2.Build_row "i-2" "m5.large" "us-east-1" "running" NaN NaN (Some 3) 0 ].

(** Seven values: 100 is an outlier of the column, and 9 is an outlier of
    what is left once 100 is gone. *)
Definition seven_values : list float :=
  [Some 1; Some 2; Some 3; Some 4; Some 5; Some 9; Some 100].

(** Seven compute rows whose costs are the seven values above. *)
Definition seven_costs : list EC2.row :=
  map (fun c => EC2.Build_row "i" "m5.large" "us-east-1" "running" (Some 50) (Some 50) c 0)
    seven_values.

(** Four zeros and a five: the five is removed and the quartiles stay 0. *)
Definition zeros_and_five : list float := [Some 0; Some 0; Some 0; Some 0; Some 5].


(** Eleven running instances at 10% CPU costing 2 each. *)
Definition eleven_idle : list EC2.row :=
  repeat (EC2.Build_row "i" "m5.large" "us-east-1" "running" (Some 10) (Some 50) (Some 2) 0) 11.

Definition all_of_eleven : selection :=
  default_selection (clean_ec2 eleven_idle) (clean_s3 []).

(** The widgets left untouched on the eleven instances and the three buckets
    of scenario 2. *)
Definition eleven_and_buckets : selection :=
  default_selection (clean_ec2 eleven_idle) (clean_s3 scenario2).

(** ** DATA LOADING (lines 26-48) *)

Definition data_folder : string := "data".

(** [os.path.join(a, b)] for a relative [b], with the POSIX separator *)
Definition path_join (a b : string) : string := (a ++ "/" ++ b)%string.

(** What the loading part leaves: the script stopped after [st.error], a
    [pd.read_csv] call raised on the file at [path] (an empty or malformed
    file, a file without the CreationDate column), or the two frames are
    bound. *)
Inductive loading : Type :=
| Stopped (error : string)
| Read_raised (path : string)
| Loaded (df_ec2 : list EC2.row) (df_s3 : list S3.row).

(** Lines 28-46.  [exists_] is [os.path.exists]; the two readers stand for
    [pd.read_csv] on the path they are given, [None] when it raises.  The
    compute file is read (line 38) before the storage path is looked at
    (line 42). *)
Definition data_loading (exists_ : string -> bool)
  (read_csv_ec2 : string -> option (list EC2.row))
  (read_csv_s3 : string -> option (list S3.row))
  : loading :=
  if negb (exists_ data_folder) then
    Stopped ("Folder '" ++ data_folder
             ++ "' not found. Please create it and add the CSV files.")%string
  else
    let ec2_path := path_join data_folder "aws_resources_compute.csv" in
    if negb (exists_ ec2_path) then
      Stopped ("EC2 file not found: " ++ ec2_path)%string
    else
      match read_csv_ec2 ec2_path with
      | None => Read_raised ec2_path
      | Some df_ec2 =>
          let s3_path := path_join data_folder "aws_resources_S3.csv" in
          if negb (exists_ s3_path) then
            Stopped ("S3 file not found: " ++ s3_path)%string
          else
            match read_csv_s3 s3_path with
            | None => Read_raised s3_path
            | Some df_s3 => Loaded df_ec2 df_s3
            end
      end.

(** ** The widgets of lines 77-82 with their defaults *)

(** [st.sidebar.multiselect] raises when a default is not one of its
    options.  The two region widgets take their options as default and the
    two others have none, so only line 78 can raise: when no row of the
    compute frame has the State "running".  [None] stands for that raise,
    [Some] for the selection an untouched sidebar returns. *)
Definition sidebar_defaults (df_ec2 : list EC2.row) (df_s3 : list S3.row)
  : option selection :=
  if existsb (String.eqb "running") (unique (map EC2.State df_ec2))
  then Some (default_selection df_ec2 df_s3)
  else None.

(** ** TAB 1 (lines 151-158): [df.isna().sum()] on one float column *)

Definition isna_sum (s : list float) : nat :=
  fold_right (fun (b : bool) n => if b then S n else n) 0%nat (map isna s).

(** ** Lines 102-103 on doubles *)

(** A key column read from a CSV holds strings, and NaN ([None]) for an empty
    cell.  [groupby] leaves the rows with a NaN key out (its default
    [dropna=True]). *)
Fixpoint keys_of (s : list (option string)) : list string :=
  match s with
  | [] => []
  | Some k :: s' => k :: keys_of s'
  | None :: s' => keys_of s'
  end.

(** The rows of one group, in frame order. *)
Definition group_rows {A : Type} (by_ : A -> option string) (k : string) (df : list A)
  : list A :=
  filter (fun r => match by_ r with
                   | Some k' => String.eqb k' k
                   | None => false
                   end) df.

(** [df.groupby(by)[col].agg().reset_index()] for any type of cell: the
    sorted distinct keys, each with the aggregate of its group's cells in
    frame order. *)
Definition groupby_any {A V : Type} (by_ : A -> option string) (val : A -> V)
  (agg : list V -> V) (df : list A) : list (string * V) :=
  map (fun k => (k, agg (map val (group_rows by_ k df))))
      (group_keys (fun k : string => k) (keys_of (map by_ df))).

(** The cells as the machine holds them: IEEE 754 binary64, and the
    accumulation loop the group-by kernels of pandas run on them. *)
Module F64.

Definition cell : Type := PrimFloat.float.

Definition of_Z (z : Z) : cell := PrimFloat.of_uint63 (Uint63.of_Z z).

(** the double nearest to [n / 100]: [cents 59115] is the double 591.15 *)
Definition cents (n : Z) : cell := PrimFloat.div (of_Z n) (of_Z 100).

(** The state the kernel keeps for one group: the running sum, the
    compensation of Kahan's summation and the number of values seen. *)
Record acc : Type := {
  sumx : cell;
  compensation : cell;
  nobs : nat
}.

(** One row of the loop: a NaN is skipped; the compensation is reset when it
    is NaN (an infinite value). *)
Definition add_value (a : acc) (val : cell) : acc :=
  if PrimFloat.is_nan val then a
  else
    let y := PrimFloat.sub val (compensation a) in
    let t := PrimFloat.add (sumx a) y in
    let c := PrimFloat.sub (PrimFloat.sub t (sumx a)) y in
    {| sumx := t;
       compensation := if PrimFloat.is_nan c then PrimFloat.zero else c;
       nobs := S (nobs a) |}.

Definition accumulate (s : list cell) : acc :=
  fold_left add_value s
    {| sumx := PrimFloat.zero; compensation := PrimFloat.zero; nobs := 0 |}.

(** the group's [sum()] *)
Definition sum (s : list cell) : cell := sumx (accumulate s).

(** the group's [mean()]: NaN for a group without a value *)
Definition mean (s : list cell) : cell :=
  let a := accumulate s in
  match nobs a with
  | O => PrimFloat.nan
  | S _ => PrimFloat.div (sumx a) (of_Z (Z.of_nat (nobs a)))
  end.

(** The two columns line 102 reads. *)
Module EC2.

Record row : Type := {
  Region : option string;
  CostUSD : cell
}.

End EC2.

(** The two columns line 103 reads. *)
Module S3.

Record row : Type := {
  Region : option string;
  TotalSizeGB : cell
}.

End S3.

(** line 102 *)
Definition avg_cost_region_of (filtered_ec2 : list EC2.row) : list (string * cell) :=
  groupby_any EC2.Region EC2.CostUSD mean filtered_ec2.

(** line 103 *)
Definition total_storage_region_of (filtered_s3 : list S3.row) : list (string * cell) :=
  groupby_any S3.Region S3.TotalSizeGB sum filtered_s3.

(** Scenario 3 of the specification. *)
Definition scenario3 : list EC2.row :=
  [ EC2.Build_row (Some "us-east"%string) (of_Z 10);
    EC2.Build_row (Some "us-east"%string) (of_Z 20);
    EC2.Build_row (Some "us-west"%string) (of_Z 30) ].

(** Scenario 3 with the us-west row moved to the front. *)
Definition scenario3_west_first : list EC2.row :=
  [ EC2.Build_row (Some "us-west"%string) (of_Z 30);
    EC2.Build_row (Some "us-east"%string) (of_Z 10);
    EC2.Build_row (Some "us-east"%string) (of_Z 20) ].

(** Three buckets of one region, of 591.15, 102.23 and 317.43 GB. *)
Definition three_buckets : list S3.row :=
  [ S3.Build_row (Some "eu-west-1"%string) (cents 59115);
    S3.Build_row (Some "eu-west-1"%string) (cents 10223);
    S3.Build_row (Some "eu-west-1"%string) (cents 31743) ].

(** The same three buckets, the last one first. *)
Definition three_buckets_moved : list S3.row :=
  [ S3.Build_row (Some "eu-west-1"%string) (cents 31743);
    S3.Build_row (Some "eu-west-1"%string) (cents 59115);
    S3.Build_row (Some "eu-west-1"%string) (cents 10223) ].

End F64.

(** * Facts *)

(** ** Cells *)

Module FloatFacts.

Lemma Qlt_bool_iff (a b : Q) : Qlt_bool a b = true <-> a < b.
Proof.
  unfold Qlt_bool. rewrite negb_true_iff, <- not_true_iff_false, Qle_bool_iff.
  split; [apply Qnot_le_lt | apply Qlt_not_le].
Qed.

Lemma feq_refl (x : float) : feq x x.
Proof. destruct x; simpl; [reflexivity | exact I]. Qed.

Lemma feq_sym (x y : float) : feq x y -> feq y x.
Proof. destruct x, y; simpl; auto. intros H; now rewrite H. Qed.

Lemma feq_trans (x y z : float) : feq x y -> feq y z -> feq x z.
Proof.
  destruct x, y, z; simpl; auto; try contradiction.
  intros H1 H2; now rewrite H1.
Qed.

End FloatFacts.

Import FloatFacts.

(** ** Masks and boolean indexing *)

Section Masks.
Context {A : Type}.

Lemma bool_index_map (p : A -> bool) (df : list A) :
  bool_index df (map p df) = filter p df.
Proof.
  induction df as [|r df IH]; simpl; [reflexivity|].
  rewrite IH. now destruct (p r).
Qed.

Lemma mask_and_map (p q : A -> bool) (df : list A) :
  Series.mask_and (map p df) (map q df) = map (fun r => p r && q r) df.
Proof.
  induction df as [|r df IH]; simpl; [reflexivity | now rewrite IH].
Qed.

Lemma mask_and_scalar_true (m : list bool) : Series.mask_and_scalar m true = m.
Proof.
  unfold Series.mask_and_scalar. rewrite <- (map_id m) at 2.
  apply map_ext; intros b; apply andb_true_r.
Qed.

Lemma isin_map (f : A -> string) (values : list string) (df : list A) :
  Series.isin (map f df) values = map (fun r => isin_b (f r) values) df.
Proof. unfold Series.isin. now rewrite map_map. Qed.

Lemma assign_map {B : Type} (set : A -> float -> B) (f : A -> float) (df : list A) :
  assign set df (map f df) = map (fun r => set r (f r)) df.
Proof.
  unfold assign. induction df as [|r df IH]; simpl; [reflexivity | now rewrite IH].
Qed.

Lemma filter_Subseq (p : A -> bool) (df : list A) : Subseq (filter p df) df.
Proof.
  induction df as [|r df IH]; simpl; [constructor|].
  destruct (p r); now constructor.
Qed.

Lemma Subseq_nil_l (l : list A) : Subseq [] l.
Proof. induction l; now constructor. Qed.

Lemma bool_index_Subseq (df : list A) (mask : list bool) :
  Subseq (bool_index df mask) df.
Proof.
  revert mask; induction df as [|r df IH]; intros mask.
  - destruct mask; constructor.
  - destruct mask as [|[] mask]; simpl.
    + apply Subseq_nil_l.
    + now constructor.
    + now constructor.
Qed.

Lemma Subseq_In (l1 l2 : list A) : Subseq l1 l2 -> forall x, In x l1 -> In x l2.
Proof.
  induction 1; intros y Hy; simpl in *; auto.
  destruct Hy; auto.
Qed.

Lemma Subseq_length (l1 l2 : list A) : Subseq l1 l2 -> (length l1 <= length l2)%nat.
Proof. induction 1; simpl; lia. Qed.

Lemma filter_filter_same (p : A -> bool) (l : list A) :
  filter p (filter p l) = filter p l.
Proof.
  induction l as [|x l IH]; simpl; [reflexivity|].
  destruct (p x) eqn:E; simpl; [rewrite E, IH|]; auto.
Qed.

End Masks.

(** ** The selection steps as filters *)

Lemma remove_outliers_filter {A : Type} (df : list A) (col : A -> float) :
  remove_outliers df col = filter (fun r => within (fences (map col df)) (col r)) df.
Proof.
  unfold remove_outliers. rewrite !map_map, mask_and_map, bool_index_map.
  reflexivity.
Qed.

Lemma filtered_ec2_filter (df : list EC2.row) (w : selection) :
  filtered_ec2_of df w = filter (ec2_passes w) df.
Proof.
  unfold filtered_ec2_of, ec2_passes. rewrite !isin_map, mask_and_map.
  destruct (ec2_types w) as [|t ts].
  - rewrite mask_and_scalar_true, bool_index_map.
    apply filter_ext; intros r. now rewrite andb_true_r.
  - now rewrite mask_and_map, bool_index_map.
Qed.

Lemma filtered_s3_filter (df : list S3.row) (w : selection) :
  filtered_s3_of df w = filter (s3_passes w) df.
Proof.
  unfold filtered_s3_of, s3_passes. rewrite !isin_map.
  destruct (s3_classes w) as [|t ts].
  - rewrite mask_and_scalar_true, bool_index_map.
    apply filter_ext; intros r. now rewrite andb_true_r.
  - now rewrite mask_and_map, bool_index_map.
Qed.

Lemma underutilized_select_filter (df : list EC2.row) :
  underutilized_select df = filter is_underutilized df.
Proof.
  unfold underutilized_select. now rewrite !map_map, mask_and_map, bool_index_map.
Qed.

Lemma expensive_select_filter (df : list S3.row) :
  expensive_select df = filter is_oversized df.
Proof.
  unfold expensive_select. now rewrite !map_map, mask_and_map, bool_index_map.
Qed.

Lemma isin_b_In (x : string) (values : list string) :
  isin_b x values = true <-> In x values.
Proof.
  unfold isin_b. rewrite existsb_exists. split.
  - intros [y [Hy E]]. apply String.eqb_eq in E. now subst.
  - intros H. exists x. split; [assumption | apply String.eqb_refl].
Qed.

Lemma filter_false_nil {A : Type} (p : A -> bool) (l : list A) :
  (forall x, p x = false) -> filter p l = [].
Proof.
  intros H. induction l as [|x l IH]; simpl; [reflexivity|]. now rewrite H.
Qed.

Lemma ec2_passes_iff (w : selection) (r : EC2.row) :
  ec2_passes w r = true <->
  In (EC2.Region r) (ec2_regions w) /\ In (EC2.State r) (ec2_states w) /\
  (ec2_types w = [] \/ In (EC2.InstanceType r) (ec2_types w)).
Proof.
  unfold ec2_passes. rewrite !andb_true_iff, !isin_b_In.
  destruct (ec2_types w) as [|t ts] eqn:E.
  - intuition.
  - rewrite isin_b_In. intuition discriminate.
Qed.

Lemma s3_passes_iff (w : selection) (r : S3.row) :
  s3_passes w r = true <->
  In (S3.Region r) (s3_regions w) /\
  (s3_classes w = [] \/ In (S3.StorageClass r) (s3_classes w)).
Proof.
  unfold s3_passes. rewrite !andb_true_iff, !isin_b_In.
  destruct (s3_classes w) as [|t ts] eqn:E.
  - intuition.
  - rewrite isin_b_In. intuition discriminate.
Qed.

(** ** Filter Engine *)

(** C3. An empty allow-set on region (or on state, for compute) leaves no
    row; an empty allow-set on instance type or storage class restricts
    nothing, so the rows passing the other allow-sets are returned; in
    general a row is kept exactly when it is a row of the frame whose value
    belongs to the allow-set of every dimension (an empty type or class
    allow-set counting as all values). *)
Theorem filter_engine_allow_sets
  (df_ec2 : list EC2.row) (df_s3 : list S3.row)
  (regions states types regions3 classes : list string) (w : selection) :
  filtered_ec2_of df_ec2 (Build_selection [] states types regions3 classes) = []
  /\ filtered_ec2_of df_ec2 (Build_selection regions [] types regions3 classes) = []
  /\ filtered_s3_of df_s3 (Build_selection regions states types [] classes) = []
  /\ filtered_ec2_of df_ec2 (Build_selection regions states [] regions3 classes)
     = filter (fun r => isin_b (EC2.Region r) regions && isin_b (EC2.State r) states)
         df_ec2
  /\ filtered_s3_of df_s3 (Build_selection regions states types regions3 [])
     = filter (fun r => isin_b (S3.Region r) regions3) df_s3
  /\ filtered_ec2_of df_ec2 w = filter (ec2_passes w) df_ec2
  /\ filtered_s3_of df_s3 w = filter (s3_passes w) df_s3
  /\ (forall r, In r (filtered_ec2_of df_ec2 w) <->
                In r df_ec2 /\ In (EC2.Region r) (ec2_regions w)
                /\ In (EC2.State r) (ec2_states w)
                /\ (ec2_types w = [] \/ In (EC2.InstanceType r) (ec2_types w)))
  /\ (forall r, In r (filtered_s3_of df_s3 w) <->
                In r df_s3 /\ In (S3.Region r) (s3_regions w)
                /\ (s3_classes w = [] \/ In (S3.StorageClass r) (s3_classes w))).
Proof.
  rewrite !filtered_ec2_filter, !filtered_s3_filter.
  repeat match goal with |- _ /\ _ => split end; try intros r.
  - apply filter_false_nil; intros r. reflexivity.
  - apply filter_false_nil; intros r. unfold ec2_passes; simpl.
    now rewrite andb_false_r.
  - apply filter_false_nil; intros r. reflexivity.
  - apply filter_ext; intros r. unfold ec2_passes; simpl. apply andb_true_r.
  - apply filter_ext; intros r. unfold s3_passes; simpl. apply andb_true_r.
  - reflexivity.
  - reflexivity.
  - rewrite filter_In, ec2_passes_iff. tauto.
  - rewrite filter_In, s3_passes_iff. tauto.
Qed.

(** Scenario 4 of the specification on a frame of two compute rows. *)
Example scenario4 :
  let r1 := EC2.Build_row "i-1" "m5.large" "us-east-1" "running" (Some 10) (Some 30) (Some 4) 0 in
  let r2 := EC2.Build_row "i-2" "t3.micro" "us-west-2" "running" (Some 60) (Some 70) (Some 1) 0 in
  filtered_ec2_of [r1; r2] (Build_selection [] ["running"%string] [] [] []) = []
  /\ filtered_ec2_of [r1; r2] (default_selection [r1; r2] []) = [r1; r2].
Proof. split; reflexivity. Qed.

(** ** Row selection keeps rows and their order *)

(** C10. Outlier removal, the two filters and the selection of each advisor
    heuristic return their input frame with some rows left out: every row
    returned is a row of the input, unchanged, and the rows returned stand in
    the order they have in the input. *)
Theorem selection_steps_return_subsequences :
  (forall (A : Type) (df : list A) (col : A -> float),
      Subseq (remove_outliers df col) df)
  /\ (forall df w, Subseq (filtered_ec2_of df w) df)
  /\ (forall df w, Subseq (filtered_s3_of df w) df)
  /\ (forall df, Subseq (underutilized_select df) df)
  /\ (forall df, Subseq (expensive_select df) df).
Proof.
  repeat split; intros; apply bool_index_Subseq.
Qed.

(** ** Optimization Advisor: selection and savings *)

Lemma is_underutilized_iff (r : EC2.row) :
  is_underutilized r = true <->
  (exists c, EC2.CPUUtilization r = Some c /\ c < 20) /\ EC2.State r = "running"%string.
Proof.
  unfold is_underutilized. rewrite andb_true_iff, String.eqb_eq.
  destruct (EC2.CPUUtilization r) as [c|]; simpl.
  - rewrite Qlt_bool_iff. split.
    + intros [H1 H2]. split; [exists c; auto | assumption].
    + intros [[c' [E H1]] H2]. injection E as <-. auto.
  - split; [intros [H _]; discriminate | intros [[c [E _]] _]; discriminate].
Qed.

Lemma is_oversized_iff (r : S3.row) :
  is_oversized r = true <->
  S3.StorageClass r = "STANDARD"%string /\ (exists s, S3.TotalSizeGB r = Some s /\ 100 < s).
Proof.
  unfold is_oversized. rewrite andb_true_iff, String.eqb_eq.
  destruct (S3.TotalSizeGB r) as [c|]; simpl.
  - rewrite Qlt_bool_iff. split.
    + intros [H1 H2]. split; [assumption | exists c; auto].
    + intros [H2 [c' [E H1]]]. injection E as <-. auto.
  - split; [intros [_ H]; discriminate | intros [_ [c [E _]]]; discriminate].
Qed.

(** C6. The underutilized-compute heuristic selects exactly the rows of the
    filtered compute frame with CPUUtilization < 20 and State = "running",
    and gives each the SavingsPerHour CostUSD * 0.5; the oversized-storage
    heuristic selects exactly the rows of the filtered storage frame with
    StorageClass = "STANDARD" and TotalSizeGB > 100, and gives each the
    MonthlySavings TotalSizeGB * 0.01.  In scenario 1 only A is selected, with
    savings 50; in scenario 2 only X, with savings 1.5. *)
Theorem advisor_selection_and_savings
  (filtered_ec2 : list EC2.row) (filtered_s3 : list S3.row) :
  underutilized_select filtered_ec2 = filter is_underutilized filtered_ec2
  /\ underutilized_savings (underutilized_select filtered_ec2)
     = map (fun r => EC2.Build_savings_row r (Float.mul (EC2.CostUSD r) (Some 0.5)))
         (filter is_underutilized filtered_ec2)
  /\ (forall r, In r (underutilized_select filtered_ec2) <->
        In r filtered_ec2
        /\ (exists c, EC2.CPUUtilization r = Some c /\ c < 20)
        /\ EC2.State r = "running"%string)
  /\ expensive_select filtered_s3 = filter is_oversized filtered_s3
  /\ expensive_savings (expensive_select filtered_s3)
     = map (fun r => S3.Build_savings_row r (Float.mul (S3.TotalSizeGB r) (Some 0.01)))
         (filter is_oversized filtered_s3)
  /\ (forall r, In r (expensive_select filtered_s3) <->
        In r filtered_s3
        /\ S3.StorageClass r = "STANDARD"%string
        /\ (exists s, S3.TotalSizeGB r = Some s /\ 100 < s))
  /\ map (fun s => EC2.ResourceId (EC2.base s))
       (underutilized_savings (underutilized_select scenario1)) = ["A"%string]
  /\ Forall2 feq
       (map EC2.SavingsPerHour (underutilized_savings (underutilized_select scenario1)))
       [Some 50]
  /\ map (fun s => S3.BucketName (S3.base s))
       (expensive_savings (expensive_select scenario2)) = ["X"%string]
  /\ Forall2 feq
       (map S3.MonthlySavings (expensive_savings (expensive_select scenario2)))
       [Some 1.5].
Proof.
  repeat match goal with |- _ /\ _ => split end.
  - apply underutilized_select_filter.
  - unfold underutilized_savings. rewrite map_map, assign_map.
    now rewrite underutilized_select_filter.
  - intros r. rewrite underutilized_select_filter, filter_In, is_underutilized_iff.
    tauto.
  - apply expensive_select_filter.
  - unfold expensive_savings. rewrite map_map, assign_map.
    now rewrite expensive_select_filter.
  - intros r. rewrite expensive_select_filter, filter_In, is_oversized_iff.
    tauto.
  - reflexivity.
  - vm_compute. repeat constructor.
  - reflexivity.
  - vm_compute. repeat constructor.
Qed.

(** ** Descending order *)

Lemma goes_before_refl (x : float) : goes_before x x = true.
Proof. destruct x; simpl; [apply Qle_bool_iff, Qle_refl | reflexivity]. Qed.

Lemma goes_before_total (x y : float) :
  goes_before x y = false -> goes_before y x = true.
Proof.
  destruct x as [a|], y as [b|]; simpl; try discriminate; auto.
  intros H. apply Qle_bool_iff. apply Qlt_le_weak. apply Qnot_le_lt.
  intros L. apply Qle_bool_iff in L. congruence.
Qed.

Lemma goes_before_trans (x y z : float) :
  goes_before x y = true -> goes_before y z = true -> goes_before x z = true.
Proof.
  destruct x as [a|], y as [b|], z as [c|]; simpl; try discriminate; auto.
  rewrite !Qle_bool_iff. intros H1 H2. now apply Qle_trans with b.
Qed.

Section StableSortFacts.
Context {A : Type} (key : A -> float).

Let before (r1 r2 : A) : Prop := goes_before (key r1) (key r2) = true.

Lemma insert_desc_perm (x : A) (l : list A) :
  Permutation (x :: l) (insert_desc key x l).
Proof.
  induction l as [|y l IH]; simpl; [reflexivity|].
  destruct (goes_before (key x) (key y)); [reflexivity|].
  rewrite perm_swap. now constructor.
Qed.

Lemma stable_sort_desc_perm (l : list A) :
  Permutation l (stable_sort_desc key l).
Proof.
  induction l as [|x l IH]; simpl; [reflexivity|].
  rewrite <- insert_desc_perm. now constructor.
Qed.

Lemma insert_desc_sorted (x : A) (l : list A) :
  Sorted before l -> Sorted before (insert_desc key x l).
Proof.
  induction l as [|y l IH]; simpl; intros S.
  - repeat constructor.
  - destruct (goes_before (key x) (key y)) eqn:E.
    + constructor; [assumption | constructor; exact E].
    + apply Sorted_inv in S. destruct S as [S Hd].
      constructor; [now apply IH|].
      destruct l as [|z l]; simpl.
      * constructor. now apply goes_before_total.
      * destruct (goes_before (key x) (key z)).
        -- constructor. now apply goes_before_total.
        -- constructor. now apply HdRel_inv in Hd.
Qed.

Lemma stable_sort_desc_sorted (l : list A) :
  Sorted before (stable_sort_desc key l).
Proof.
  induction l as [|x l IH]; simpl; [constructor | now apply insert_desc_sorted].
Qed.

End StableSortFacts.

(** The stable sort is one of the arrangements [sort_values] may return. *)
#[local] Instance stable_SortValues : SortValues := {|
  sort_values := fun A => @stable_sort_desc A;
  sort_values_perm := fun A => @stable_sort_desc_perm A;
  sort_values_sorted := fun A => @stable_sort_desc_sorted A
|}.

(** ** Optimization Advisor: the headline totals *)

Lemma sort_values_single `{SortValues} {A : Type} (key : A -> float) (r : A) :
  sort_values key [r] = [r].
Proof. apply Permutation_length_1_inv, sort_values_perm. Qed.

(** Scenario 1 run through the script with the default widgets: the table has
    the one row A and the headline is 50, whatever the sort does with ties. *)
Example scenario1_run `{SortValues} :
  let d := downstream (data_cleaning scenario1 scenario2)
             (default_selection scenario1 scenario2) in
  map (fun s => EC2.ResourceId (EC2.base s)) (underutilized_ec2 d) = ["A"%string]
  /\ exists t, total_savings_hr d = Some t /\ feq t (Some 50).
Proof.
  intros d.
  assert (E : underutilized_ec2 d
              = [EC2.Build_savings_row
                   (EC2.Build_row "A" "m5.large" "us-east-1" "running"
                      (Some 10) (Some 50) (Some 100) 0)
                   (Float.mul (Some 100) (Some 0.5))]).
  { subst d. unfold downstream; cbn [underutilized_ec2]. unfold underutilized_top.
    change (underutilized_savings _) with
      [EC2.Build_savings_row
         (EC2.Build_row "A" "m5.large" "us-east-1" "running"
            (Some 10) (Some 50) (Some 100) 0)
         (Float.mul (Some 100) (Some 0.5))].
    now rewrite sort_values_single. }
  split.
  - now rewrite E.
  - assert (T : total_savings_hr d = total_savings_hr_of (underutilized_ec2 d))
      by reflexivity.
    rewrite T, E. eexists. split; [reflexivity|]. vm_compute. reflexivity.
Qed.

(** ** Cleaner *)

Lemma fillna_assign {A B : Type} (set : A -> float -> B) (get : A -> float)
  (df : list A) (v : float) :
  assign set df (Series.fillna (map get df) v) = map (fun r => set r (filled v (get r))) df.
Proof.
  unfold Series.fillna. rewrite map_map. apply (assign_map set (fun r => filled v (get r))).
Qed.

Lemma clean_ec2_map (df : list EC2.row) :
  clean_ec2 df =
  map (fun r =>
         EC2.Build_row (EC2.ResourceId r) (EC2.InstanceType r) (EC2.Region r) (EC2.State r)
           (filled (Series.median (map EC2.CPUUtilization df)) (EC2.CPUUtilization r))
           (filled (Series.median (map EC2.MemoryUtilization df)) (EC2.MemoryUtilization r))
           (filled (Some 0) (EC2.CostUSD r))
           (EC2.CreationDate r))
      df.
Proof.
  unfold clean_ec2; cbv zeta.
  rewrite !fillna_assign, !map_map. reflexivity.
Qed.

Lemma clean_s3_map (df : list S3.row) :
  clean_s3 df =
  map (fun r =>
         S3.Build_row (S3.BucketName r) (S3.Region r) (S3.StorageClass r)
           (filled (Some 0) (S3.TotalSizeGB r)) (S3.ObjectCount r)
           (filled (Some 0) (S3.CostUSD r)) (S3.CreationDate r))
      df.
Proof.
  unfold clean_s3; cbv zeta.
  rewrite !fillna_assign, !map_map. reflexivity.
Qed.

Lemma insert_asc_length (a : Q) (l : list Q) :
  length (Series.insert_asc a l) = S (length l).
Proof.
  induction l as [|b l IH]; simpl; [reflexivity|].
  destruct (Qle_bool a b); simpl; [reflexivity | now rewrite IH].
Qed.

Lemma sorted_values_length (s : list float) :
  length (Series.sorted_values s) = length (Series.dropna s).
Proof.
  unfold Series.sorted_values.
  induction (Series.dropna s) as [|a l IH]; simpl; [reflexivity|].
  now rewrite insert_asc_length, IH.
Qed.

Lemma dropna_In (s : list float) (x : Q) : In x (Series.dropna s) <-> In (Some x) s.
Proof.
  induction s as [|[a|] s IH]; simpl.
  - tauto.
  - rewrite IH. split; (intros [E|H]; [left; congruence | now right]).
  - rewrite IH. split; [now right | intros [E|H]; [discriminate | assumption]].
Qed.

Lemma all_missing_dropna (s : list float) : all_missing s <-> Series.dropna s = [].
Proof.
  unfold all_missing. induction s as [|[a|] s IH]; simpl.
  - split; auto.
  - split; [intros H; inversion H; discriminate | discriminate].
  - rewrite <- IH. split; [intros H; now inversion H | intros H; now constructor].
Qed.

Lemma median_all_missing (s : list float) : all_missing s -> Series.median s = NaN.
Proof.
  intros H. apply all_missing_dropna in H.
  unfold Series.median, Series.sorted_values. now rewrite H.
Qed.

Lemma median_has_value (s : list float) (x : Q) :
  In (Some x) s -> Series.median s <> NaN.
Proof.
  intros H. apply dropna_In in H. unfold Series.median.
  pose proof (sorted_values_length s) as L.
  destruct (Series.dropna s) as [|a l]; [contradiction|].
  destruct (length (Series.sorted_values s)) as [|n]; [discriminate|].
  destruct (Nat.odd (S n)); discriminate.
Qed.

Lemma median_single (s : list float) (x : Q) :
  Series.dropna s = [x] -> Series.median s = Some x.
Proof.
  intros H. unfold Series.median, Series.sorted_values. now rewrite H.
Qed.

Lemma quantile_all_missing (s : list float) (q : Q) :
  all_missing s -> Series.quantile s q = NaN.
Proof.
  intros H. apply all_missing_dropna in H.
  unfold Series.quantile, Series.sorted_values. now rewrite H.
Qed.

Lemma filled_not_missing (v x : float) : v <> NaN -> filled v x <> NaN.
Proof. destruct x; simpl; [discriminate | auto]. Qed.

(** The CPU column of a frame with no CPU value is still empty after the
    cleaning. *)
Lemma cleaning_leaves_empty_cpu_column_missing :
  ~ Forall (fun r => EC2.CPUUtilization r <> NaN)
      (df_ec2 (data_cleaning [blank_ec2] [])).
Proof.
  intros H. inversion H as [|r l Hr _]; subst. now apply Hr.
Qed.

(** C5, as the script computes it.  After the cleaning CostUSD (both frames)
    and TotalSizeGB have no missing value, each missing one being replaced
    by 0; a utilization column that has a value in the loaded frame has no
    missing value either, each missing one being replaced by the median of
    the loaded column, computed over all rows before any outlier removal.
    No other cell changes.  When the loaded utilization column has exactly
    one value, that value is the one imputed. *)
Theorem cleaning_imputes (raw_ec2 : list EC2.row) (raw_s3 : list S3.row) :
  let g := data_cleaning raw_ec2 raw_s3 in
  let cpu := Series.median (map EC2.CPUUtilization raw_ec2) in
  let mem := Series.median (map EC2.MemoryUtilization raw_ec2) in
  df_ec2 g
  = map (fun r =>
           EC2.Build_row (EC2.ResourceId r) (EC2.InstanceType r) (EC2.Region r)
             (EC2.State r)
             (if isna (EC2.CPUUtilization r) then cpu else EC2.CPUUtilization r)
             (if isna (EC2.MemoryUtilization r) then mem else EC2.MemoryUtilization r)
             (if isna (EC2.CostUSD r) then Some 0 else EC2.CostUSD r)
             (EC2.CreationDate r))
        raw_ec2
  /\ df_s3 g
     = map (fun r =>
              S3.Build_row (S3.BucketName r) (S3.Region r) (S3.StorageClass r)
                (if isna (S3.TotalSizeGB r) then Some 0 else S3.TotalSizeGB r)
                (S3.ObjectCount r)
                (if isna (S3.CostUSD r) then Some 0 else S3.CostUSD r)
                (S3.CreationDate r))
           raw_s3
  /\ Forall (fun r => EC2.CostUSD r <> NaN) (df_ec2 g)
  /\ Forall (fun r => S3.CostUSD r <> NaN /\ S3.TotalSizeGB r <> NaN) (df_s3 g)
  /\ ((exists x, In (Some x) (map EC2.CPUUtilization raw_ec2)) ->
      Forall (fun r => EC2.CPUUtilization r <> NaN) (df_ec2 g))
  /\ ((exists x, In (Some x) (map EC2.MemoryUtilization raw_ec2)) ->
      Forall (fun r => EC2.MemoryUtilization r <> NaN) (df_ec2 g))
  /\ (forall x, Series.dropna (map EC2.CPUUtilization raw_ec2) = [x] -> cpu = Some x)
  /\ (forall x, Series.dropna (map EC2.MemoryUtilization raw_ec2) = [x] -> mem = Some x).
Proof.
  intros g cpu mem. subst g. unfold data_cleaning; cbn [df_ec2 df_s3].
  rewrite clean_ec2_map, clean_s3_map.
  repeat match goal with |- _ /\ _ => split end.
  - reflexivity.
  - reflexivity.
  - apply Forall_map, Forall_forall. intros r _. simpl.
    now apply filled_not_missing.
  - apply Forall_map, Forall_forall. intros r _. simpl.
    split; now apply filled_not_missing.
  - intros [x Hx]. apply Forall_map, Forall_forall. intros r _. simpl.
    apply filled_not_missing. now apply median_has_value with x.
  - intros [x Hx]. apply Forall_map, Forall_forall. intros r _. simpl.
    apply filled_not_missing. now apply median_has_value with x.
  - intros x. apply median_single.
  - intros x. apply median_single.
Qed.

Lemma cleaning_imputes_witness :
  (exists x, In (Some x) (map EC2.CPUUtilization half_read_ec2))
  /\ (exists x, In (Some x) (map EC2.MemoryUtilization half_read_ec2))
  /\ Forall (fun r => EC2.CPUUtilization r <> NaN)
       (df_ec2 (data_cleaning half_read_ec2 []))
  /\ Forall (fun r => EC2.MemoryUtilization r <> NaN)
       (df_ec2 (data_cleaning half_read_ec2 []))
  /\ Series.median (map EC2.CPUUtilization half_read_ec2) = Some 35
  /\ Series.median (map EC2.MemoryUtilization half_read_ec2) = Some 60.
Proof.
  assert (H1 : exists x, In (Some x) (map EC2.CPUUtilization half_read_ec2))
    by (exists 35; simpl; auto).
  assert (H2 : exists x, In (Some x) (map EC2.MemoryUtilization half_read_ec2))
    by (exists 60; simpl; auto).
  destruct (cleaning_imputes half_read_ec2 [])
    as (_ & _ & _ & _ & T1 & T2 & T3 & T4).
  exact (conj H1 (conj H2 (conj (T1 H1) (conj (T2 H2)
           (conj (T3 35 eq_refl) (T4 60 eq_refl)))))).
Defined.

Lemma remove_outliers_all_missing {A : Type} (df : list A) (col : A -> float) :
  all_missing (map col df) -> remove_outliers df col = [].
Proof.
  intros H. rewrite remove_outliers_filter. apply filter_false_nil. intros r.
  unfold fences, within. rewrite !quantile_all_missing by assumption.
  simpl. destruct (col r); reflexivity.
Qed.

Lemma all_missing_filled (v : float) (s : list float) :
  all_missing s -> map (filled v) s = map (fun _ => v) s.
Proof.
  unfold all_missing. induction 1 as [|x l Hx _ IH]; simpl; [reflexivity|].
  now rewrite Hx, IH.
Qed.

(** On a frame whose numeric columns are all empty the cleaning part runs to
    its end and binds its four globals. *)
Lemma cleaning_of_empty_columns_returns :
  all_missing (map EC2.CostUSD [blank_ec2])
  /\ all_missing (map EC2.CPUUtilization [blank_ec2])
  /\ run_data_cleaning [blank_ec2] []
     = Bound {| df_ec2 := [EC2.set_CostUSD blank_ec2 (Some 0)];
                df_s3 := [];
                df_ec2_clean := [EC2.set_CostUSD blank_ec2 (Some 0)];
                df_s3_clean := [] |}
  /\ run_data_cleaning [blank_ec2] [] <> Raised "DataShapeError".
Proof.
  repeat match goal with |- _ /\ _ => split end.
  - repeat constructor.
  - repeat constructor.
  - reflexivity.
  - discriminate.
Qed.

(** C2, as the script computes it.  The cleaning part raises nothing and
    binds its globals on every input.  A CostUSD or TotalSizeGB column with
    no value becomes 0 in every row; a utilization column with no value is
    left with no value, its median being NaN; and outlier removal on a column
    with no value returns the empty frame. *)
Theorem cleaning_of_empty_column (raw_ec2 : list EC2.row) (raw_s3 : list S3.row) :
  let g := data_cleaning raw_ec2 raw_s3 in
  run_data_cleaning raw_ec2 raw_s3 = Bound g
  /\ length (df_ec2 g) = length raw_ec2
  /\ length (df_s3 g) = length raw_s3
  /\ (all_missing (map EC2.CostUSD raw_ec2) ->
      map EC2.CostUSD (df_ec2 g) = map (fun _ => Some 0) raw_ec2)
  /\ (all_missing (map S3.CostUSD raw_s3) ->
      map S3.CostUSD (df_s3 g) = map (fun _ => Some 0) raw_s3)
  /\ (all_missing (map S3.TotalSizeGB raw_s3) ->
      map S3.TotalSizeGB (df_s3 g) = map (fun _ => Some 0) raw_s3)
  /\ (all_missing (map EC2.CPUUtilization raw_ec2) ->
      all_missing (map EC2.CPUUtilization (df_ec2 g)))
  /\ (all_missing (map EC2.MemoryUtilization raw_ec2) ->
      all_missing (map EC2.MemoryUtilization (df_ec2 g)))
  /\ (forall (A : Type) (df : list A) (col : A -> float),
        all_missing (map col df) -> remove_outliers df col = []).
Proof.
  intros g. subst g. unfold run_data_cleaning, data_cleaning; cbn [df_ec2 df_s3].
  rewrite clean_ec2_map, clean_s3_map.
  repeat match goal with |- _ /\ _ => split end.
  - reflexivity.
  - apply length_map.
  - apply length_map.
  - intros H. rewrite map_map; cbn [EC2.CostUSD].
    rewrite <- (map_map EC2.CostUSD (filled (Some 0))), all_missing_filled by assumption.
    now rewrite map_map.
  - intros H. rewrite map_map; cbn [S3.CostUSD].
    rewrite <- (map_map S3.CostUSD (filled (Some 0))), all_missing_filled by assumption.
    now rewrite map_map.
  - intros H. rewrite map_map; cbn [S3.TotalSizeGB].
    rewrite <- (map_map S3.TotalSizeGB (filled (Some 0))), all_missing_filled by assumption.
    now rewrite map_map.
  - intros H. rewrite map_map; cbn [EC2.CPUUtilization].
    rewrite (median_all_missing _ H).
    rewrite <- (map_map EC2.CPUUtilization (filled NaN)), all_missing_filled by assumption.
    unfold all_missing. apply Forall_map, Forall_forall. reflexivity.
  - intros H. rewrite map_map; cbn [EC2.MemoryUtilization].
    rewrite (median_all_missing _ H).
    rewrite <- (map_map EC2.MemoryUtilization (filled NaN)), all_missing_filled by assumption.
    unfold all_missing. apply Forall_map, Forall_forall. reflexivity.
  - intros A df col. apply remove_outliers_all_missing.
Qed.

Lemma cleaning_of_empty_column_witness :
  all_missing (map EC2.CostUSD [blank_ec2])
  /\ all_missing (map S3.CostUSD [blank_s3])
  /\ all_missing (map S3.TotalSizeGB [blank_s3])
  /\ all_missing (map EC2.CPUUtilization [blank_ec2])
  /\ all_missing (map EC2.MemoryUtilization [blank_ec2])
  /\ map EC2.CostUSD (df_ec2 (data_cleaning [blank_ec2] [blank_s3])) = [Some 0]
  /\ map S3.CostUSD (df_s3 (data_cleaning [blank_ec2] [blank_s3])) = [Some 0]
  /\ map S3.TotalSizeGB (df_s3 (data_cleaning [blank_ec2] [blank_s3])) = [Some 0]
  /\ all_missing (map EC2.CPUUtilization (df_ec2 (data_cleaning [blank_ec2] [blank_s3])))
  /\ all_missing (map EC2.MemoryUtilization (df_ec2 (data_cleaning [blank_ec2] [blank_s3])))
  /\ remove_outliers [blank_ec2] EC2.CPUUtilization = [].
Proof.
  assert (H1 : all_missing (map EC2.CostUSD [blank_ec2])) by (repeat constructor).
  assert (H2 : all_missing (map S3.CostUSD [blank_s3])) by (repeat constructor).
  assert (H3 : all_missing (map S3.TotalSizeGB [blank_s3])) by (repeat constructor).
  assert (H4 : all_missing (map EC2.CPUUtilization [blank_ec2])) by (repeat constructor).
  assert (H5 : all_missing (map EC2.MemoryUtilization [blank_ec2])) by (repeat constructor).
  destruct (cleaning_of_empty_column [blank_ec2] [blank_s3])
    as (_ & _ & _ & T1 & T2 & T3 & T4 & T5 & T6).
  exact (conj H1 (conj H2 (conj H3 (conj H4 (conj H5
          (conj (T1 H1) (conj (T2 H2) (conj (T3 H3) (conj (T4 H4) (conj (T5 H5)
          (T6 _ [blank_ec2] EC2.CPUUtilization H4))))))))))).
Defined.

(** ** Outlier removal applied twice *)

Lemma fences_feq (s s' : list float) :
  feq (Series.quantile s 0.25) (Series.quantile s' 0.25) ->
  feq (Series.quantile s 0.75) (Series.quantile s' 0.75) ->
  feq (fst (fences s)) (fst (fences s')) /\ feq (snd (fences s)) (snd (fences s')).
Proof.
  unfold fences.
  destruct (Series.quantile s 0.25) as [a|], (Series.quantile s' 0.25) as [a'|];
    destruct (Series.quantile s 0.75) as [b|], (Series.quantile s' 0.75) as [b'|];
    simpl; try contradiction; auto.
  intros Ha Hb. now rewrite Ha, Hb.
Qed.

Lemma within_feq (f f' : float * float) (x : float) :
  feq (fst f) (fst f') -> feq (snd f) (snd f') -> within f x = within f' x.
Proof.
  unfold within, Float.ge, Float.le, cmp.
  destruct f as [[lo|] [hi|]], f' as [[lo'|] [hi'|]], x as [x|];
    simpl; try contradiction; auto; intros H1 H2;
    rewrite ?H1, ?H2; reflexivity.
Qed.

Lemma remove_outliers_not_idempotent :
  remove_outliers seven_values (fun x => x)
  = [Some 1; Some 2; Some 3; Some 4; Some 5; Some 9]
  /\ remove_outliers (remove_outliers seven_values (fun x => x)) (fun x => x)
     = [Some 1; Some 2; Some 3; Some 4; Some 5]
  /\ remove_outliers (remove_outliers seven_values (fun x => x)) (fun x => x)
     <> remove_outliers seven_values (fun x => x).
Proof.
  repeat match goal with |- _ /\ _ => split end.
  - vm_compute. reflexivity.
  - vm_compute. reflexivity.
  - vm_compute. discriminate.
Qed.

(** C4, as the script computes it.  A second outlier removal on the same
    column returns the result of the first with some rows left out, in the
    same order; it returns exactly the result of the first when the first
    leaves the quartiles Q1 and Q3 of the column unchanged, in particular
    when the first removes no row. *)
Theorem remove_outliers_twice {A : Type} (df : list A) (col : A -> float) :
  let once := remove_outliers df col in
  Subseq (remove_outliers once col) once
  /\ (feq (Series.quantile (map col once) 0.25) (Series.quantile (map col df) 0.25) ->
      feq (Series.quantile (map col once) 0.75) (Series.quantile (map col df) 0.75) ->
      remove_outliers once col = once)
  /\ (once = df -> remove_outliers once col = once).
Proof.
  intros once. repeat match goal with |- _ /\ _ => split end.
  - apply bool_index_Subseq.
  - intros H1 H2. destruct (fences_feq _ _ H1 H2) as [F1 F2].
    rewrite (remove_outliers_filter once).
    transitivity (filter (fun r => within (fences (map col df)) (col r)) once).
    + apply filter_ext. intros r. now apply within_feq.
    + subst once. rewrite remove_outliers_filter. apply filter_filter_same.
  - intros E. rewrite E. exact E.
Qed.

Lemma remove_outliers_twice_witness :
  let once := remove_outliers zeros_and_five (fun x => x) in
  once = [Some 0; Some 0; Some 0; Some 0]
  /\ feq (Series.quantile (map (fun x => x) once) 0.25)
         (Series.quantile (map (fun x => x) zeros_and_five) 0.25)
  /\ feq (Series.quantile (map (fun x => x) once) 0.75)
         (Series.quantile (map (fun x => x) zeros_and_five) 0.75)
  /\ remove_outliers once (fun x => x) = once
  /\ remove_outliers [Some 1; Some 2] (fun x => x) = [Some 1; Some 2]
  /\ remove_outliers (remove_outliers [Some 1; Some 2] (fun x => x)) (fun x => x)
     = remove_outliers [Some 1; Some 2] (fun x => x).
Proof.
  intros once.
  assert (E : once = [Some 0; Some 0; Some 0; Some 0]) by (vm_compute; reflexivity).
  assert (H1 : feq (Series.quantile (map (fun x => x) once) 0.25)
                 (Series.quantile (map (fun x => x) zeros_and_five) 0.25))
    by (vm_compute; reflexivity).
  assert (H2 : feq (Series.quantile (map (fun x => x) once) 0.75)
                 (Series.quantile (map (fun x => x) zeros_and_five) 0.75))
    by (vm_compute; reflexivity).
  assert (E2 : remove_outliers [Some 1; Some 2] (fun x => x) = [Some 1; Some 2])
    by (vm_compute; reflexivity).
  destruct (remove_outliers_twice zeros_and_five (fun x => x)) as (_ & T1 & _).
  destruct (remove_outliers_twice [Some 1; Some 2] (fun x : float => x)) as (_ & _ & T2).
  exact (conj E (conj H1 (conj H2 (conj (T1 H1 H2) (conj E2 (T2 E2)))))).
Defined.

(** ** Aggregator: [top_n_by] *)



Lemma StronglySorted_app_inv {A : Type} (R : A -> A -> Prop) (l1 l2 : list A) :
  StronglySorted R (l1 ++ l2) ->
  StronglySorted R l1 /\ forall x y, In x l1 -> In y l2 -> R x y.
Proof.
  induction l1 as [|a l1 IH]; simpl; intros S.
  - split; [constructor | contradiction].
  - apply StronglySorted_inv in S. destruct S as [S F].
    destruct (IH S) as [S1 H]. split.
    + constructor; [assumption|]. apply Forall_forall. intros y Hy.
      rewrite Forall_forall in F. apply F, in_or_app. now left.
    + intros x y [<-|Hx] Hy; [|now apply H].
      rewrite Forall_forall in F. apply F, in_or_app. now right.
Qed.

Section NLargestFacts.
Context {A : Type} (key : A -> float).

Let before (r1 r2 : A) : Prop := goes_before (key r1) (key r2) = true.




End NLargestFacts.



(** The columns the script ranks have no missing value in the filtered
    views. *)
Lemma ranked_columns_have_values
  (raw_ec2 : list EC2.row) (raw_s3 : list S3.row) (w : selection) :
  Forall (fun r => EC2.CostUSD r <> NaN) (filtered_ec2_of (clean_ec2 raw_ec2) w)
  /\ Forall (fun r => S3.TotalSizeGB r <> NaN) (filtered_s3_of (clean_s3 raw_s3) w).
Proof.
  split; apply Forall_forall; intros r Hr.
  - apply (Subseq_In _ _ (bool_index_Subseq _ _)) in Hr.
    rewrite clean_ec2_map in Hr. apply in_map_iff in Hr. destruct Hr as [r0 [<- _]].
    simpl. now apply filled_not_missing.
  - apply (Subseq_In _ _ (bool_index_Subseq _ _)) in Hr.
    rewrite clean_s3_map in Hr. apply in_map_iff in Hr. destruct Hr as [r0 [<- _]].
    simpl. now apply filled_not_missing.
Qed.

(** ** Aggregator: [group_mean] and [group_sum] *)

Section GroupKeys.

Lemma insert_key_In (k k' : string) (ks : list string) :
  In k' (insert_key k ks) <-> k' = k \/ In k' ks.
Proof.
  induction ks as [|a ks IH]; simpl.
  - intuition.
  - destruct (String_as_OT.compare_spec k a) as [E|L|G]; simpl.
    + subst. intuition congruence.
    + intuition congruence.
    + rewrite IH. intuition congruence.
Qed.

Lemma insert_key_sorted (k : string) (ks : list string) :
  StronglySorted String_as_OT.lt ks -> StronglySorted String_as_OT.lt (insert_key k ks).
Proof.
  induction ks as [|a ks IH]; simpl; intros S.
  - repeat constructor.
  - destruct (String_as_OT.compare_spec k a) as [E|L|G].
    + assumption.
    + constructor; [assumption|]. constructor; [assumption|].
      apply StronglySorted_inv in S. destruct S as [_ F].
      rewrite Forall_forall in *. intros x Hx. transitivity a; auto.
    + apply StronglySorted_inv in S. destruct S as [S F].
      constructor; [now apply IH|].
      rewrite Forall_forall in *. intros x Hx. apply insert_key_In in Hx.
      destruct Hx as [->|Hx]; auto.
Qed.

Lemma sorted_keys_unique (l1 l2 : list string) :
  StronglySorted String_as_OT.lt l1 -> StronglySorted String_as_OT.lt l2 ->
  (forall k, In k l1 <-> In k l2) -> l1 = l2.
Proof.
  revert l2; induction l1 as [|a l1 IH]; intros [|b l2] S1 S2 H.
  - reflexivity.
  - exfalso. apply (H b). now left.
  - exfalso. apply (H a). now left.
  - apply StronglySorted_inv in S1. destruct S1 as [S1 F1].
    apply StronglySorted_inv in S2. destruct S2 as [S2 F2].
    rewrite Forall_forall in F1, F2.
    assert (E : a = b).
    { destruct (proj1 (H a) (or_introl eq_refl)) as [E|Ha]; [now symmetry|].
      destruct (proj2 (H b) (or_introl eq_refl)) as [E|Hb]; [assumption|].
      exfalso. apply (irreflexivity (R := String_as_OT.lt) (x := a)).
      transitivity b; auto. }
    subst b. f_equal. apply IH; auto.
    intros k. split; intros Hk.
    + destruct (proj1 (H k) (or_intror Hk)) as [E|Hk']; [|assumption].
      subst k. exfalso. apply (irreflexivity (R := String_as_OT.lt) (x := a)). auto.
    + destruct (proj2 (H k) (or_intror Hk)) as [E|Hk']; [|assumption].
      subst k. exfalso. apply (irreflexivity (R := String_as_OT.lt) (x := a)). auto.
Qed.

Lemma sorted_keys_NoDup (l : list string) : StronglySorted String_as_OT.lt l -> NoDup l.
Proof.
  induction 1 as [|a l S IH F]; constructor; [|assumption].
  intros Ha. rewrite Forall_forall in F.
  apply (irreflexivity (R := String_as_OT.lt) (x := a)). auto.
Qed.

Context {A : Type} (by_ : A -> string).

Lemma group_keys_In (k : string) (df : list A) :
  In k (group_keys by_ df) <-> In k (map by_ df).
Proof.
  unfold group_keys. induction (map by_ df) as [|a l IH]; simpl; [tauto|].
  rewrite insert_key_In, IH. intuition.
Qed.

Lemma group_keys_sorted (df : list A) : StronglySorted String_as_OT.lt (group_keys by_ df).
Proof.
  unfold group_keys. induction (map by_ df) as [|a l IH]; simpl.
  - constructor.
  - now apply insert_key_sorted.
Qed.

Lemma group_keys_perm (df df' : list A) :
  Permutation df df' -> group_keys by_ df = group_keys by_ df'.
Proof.
  intros P. apply sorted_keys_unique; try apply group_keys_sorted.
  intros k. rewrite !group_keys_In. split; apply Permutation_in.
  - now apply Permutation_map.
  - now apply Permutation_map, Permutation_sym.
Qed.

End GroupKeys.

Lemma filter_perm {A : Type} (p : A -> bool) (l l' : list A) :
  Permutation l l' -> Permutation (filter p l) (filter p l').
Proof.
  induction 1 as [|x l l' _ IH|x y l|l l' l'' _ IH1 _ IH2]; simpl.
  - constructor.
  - destruct (p x); [now constructor | assumption].
  - destruct (p x), (p y); try reflexivity. apply perm_swap.
  - now transitivity (filter p l').
Qed.

Section GroupByFacts.
Context {A : Type} (by_ : A -> string) (val : A -> float).

Lemma groupby_agg_keys (agg : list float -> float) (df : list A) :
  map fst (groupby_agg by_ val agg df) = group_keys by_ df.
Proof.
  unfold groupby_agg. rewrite map_map. simpl. apply map_id.
Qed.

Lemma groupby_agg_In (agg : list float -> float) (df : list A) (k : string) (v : float) :
  In (k, v) (groupby_agg by_ val agg df) <->
  In k (map by_ df) /\ v = agg (group by_ val k df).
Proof.
  unfold groupby_agg. rewrite in_map_iff, <- group_keys_In. split.
  - intros [k' [E Hk]]. injection E as -> <-. auto.
  - intros [Hk ->]. now exists k.
Qed.

End GroupByFacts.

(** ** The outlier-free views *)

(** The row costing 100 is absent from [df_ec2_clean] and present in the
    filtered view and at the head of the top five. *)
Example outlier_row_still_downstream :
  let run := script seven_costs scenario2 (default_selection seven_costs scenario2) in
  map EC2.CostUSD (df_ec2_clean (fst run))
  = [Some 1; Some 2; Some 3; Some 4; Some 5; Some 9]
  /\ map EC2.CostUSD (filtered_ec2 (snd run)) = seven_values
  /\ map snd (top5_ec2 (snd run)) = [Some 100; Some 9; Some 5; Some 4; Some 3].
Proof. intros run. repeat split; vm_compute; reflexivity. Qed.

(** C9. Nothing after line 70 reads [df_ec2_clean] or [df_s3_clean]: every
    global bound after the cleaning part is what the Filter Engine, the
    Aggregator and the Optimization Advisor give on the two imputed views,
    and stays the same whatever frames the two outlier-free views hold. *)
Theorem clean_views_feed_no_stage `{SortValues}
  (raw_ec2 : list EC2.row) (raw_s3 : list S3.row) (w : selection)
  (g : cleaned) (other_ec2_clean : list EC2.row) (other_s3_clean : list S3.row) :
  snd (script raw_ec2 raw_s3 w) = stages_on_imputed (clean_ec2 raw_ec2) (clean_s3 raw_s3) w
  /\ fst (script raw_ec2 raw_s3 w)
     = {| df_ec2 := clean_ec2 raw_ec2;
          df_s3 := clean_s3 raw_s3;
          df_ec2_clean := remove_outliers (clean_ec2 raw_ec2) EC2.CostUSD;
          df_s3_clean := remove_outliers (clean_s3 raw_s3) S3.TotalSizeGB |}
  /\ downstream g w = stages_on_imputed (df_ec2 g) (df_s3 g) w
  /\ downstream g w
     = downstream {| df_ec2 := df_ec2 g;
                     df_s3 := df_s3 g;
                     df_ec2_clean := other_ec2_clean;
                     df_s3_clean := other_s3_clean |} w.
Proof. repeat split. Qed.

(** * The rest of the script *)

(** ** The widgets and the filters *)

Lemma Subseq_refl {A : Type} (l : list A) : Subseq l l.
Proof. induction l; now constructor. Qed.

Lemma Subseq_trans {A : Type} (l1 l2 l3 : list A) :
  Subseq l1 l2 -> Subseq l2 l3 -> Subseq l1 l3.
Proof.
  intros H12 H23. revert l1 H12.
  induction H23 as [|x l2 l3 _ IH|x l2 l3 _ IH]; intros l1 H12.
  - assumption.
  - constructor. now apply IH.
  - inversion H12; subst; constructor; now apply IH.
Qed.

Lemma filter_Subseq_impl {A : Type} (p q : A -> bool) (l : list A) :
  (forall x, In x l -> p x = true -> q x = true) ->
  Subseq (filter p l) (filter q l).
Proof.
  induction l as [|x l IH]; intros H; simpl; [constructor|].
  assert (IH' : Subseq (filter p l) (filter q l))
    by (apply IH; intros y Hy; apply H; now right).
  destruct (p x) eqn:Ep.
  - rewrite (H x (or_introl eq_refl) Ep). now constructor.
  - destruct (q x); [now constructor | assumption].
Qed.

Lemma filter_all {A : Type} (p : A -> bool) (l : list A) :
  (forall x, In x l -> p x = true) -> filter p l = l.
Proof.
  induction l as [|x l IH]; intros H; simpl; [reflexivity|].
  rewrite (H x (or_introl eq_refl)). f_equal. apply IH. intros y Hy. apply H. now right.
Qed.

Lemma unique_In (s : list string) (x : string) : In x (unique s) <-> In x s.
Proof.
  induction s as [|a s IH]; simpl; [tauto|].
  rewrite filter_In, IH, negb_true_iff, String.eqb_neq.
  destruct (string_dec a x) as [E|N]; [tauto|].
  split; [tauto|]. intros [E|H]; [tauto|]. right. split; [assumption | congruence].
Qed.

(** X1. The options each multiselect lists, and the default of the two
    region widgets ([df[col].unique()]): every value of the column, each
    once, in the order of the frame. *)
Theorem widget_options_distinct (s : list string) :
  NoDup (unique s)
  /\ (forall x, In x (unique s) <-> In x s)
  /\ Subseq (unique s) s.
Proof.
  repeat match goal with |- _ /\ _ => split end.
  - induction s as [|a s IH]; simpl; constructor.
    + rewrite filter_In, String.eqb_refl. intros [_ H]. discriminate.
    + now apply NoDup_filter.
  - intros x. apply unique_In.
  - induction s as [|a s IH]; simpl; [constructor|]. apply Subseq_keep.
    apply Subseq_trans with (unique s); [apply filter_Subseq | assumption].
Qed.

Lemma ec2_passes_mono (w w' : selection) (r : EC2.row) :
  incl (ec2_regions w) (ec2_regions w') ->
  incl (ec2_states w) (ec2_states w') ->
  (ec2_types w' = [] \/ (ec2_types w <> [] /\ incl (ec2_types w) (ec2_types w'))) ->
  ec2_passes w r = true -> ec2_passes w' r = true.
Proof.
  intros Hr Hs Ht. rewrite !ec2_passes_iff. intros (H1 & H2 & H3).
  split; [now apply Hr|]. split; [now apply Hs|].
  destruct Ht as [E|[N I]]; [now left|]. right.
  destruct H3 as [E|H3]; [contradiction | now apply I].
Qed.

(** X3. Filtering a filtered view again with the same widgets changes
    nothing.  Widening the region and state selections never loses a row,
    and neither does widening a non-empty instance-type selection or
    clearing it: the view of the narrower selection is the view of the wider
    one with rows left out. *)
Theorem filter_engine_idempotent_and_monotone
  (df_ec2 : list EC2.row) (w w' : selection) :
  filtered_ec2_of (filtered_ec2_of df_ec2 w) w = filtered_ec2_of df_ec2 w
  /\ (incl (ec2_regions w) (ec2_regions w') ->
      incl (ec2_states w) (ec2_states w') ->
      (ec2_types w' = [] \/ (ec2_types w <> [] /\ incl (ec2_types w) (ec2_types w'))) ->
      Subseq (filtered_ec2_of df_ec2 w) (filtered_ec2_of df_ec2 w')).
Proof.
  split.
  - rewrite !filtered_ec2_filter. apply filter_filter_same.
  - intros Hr Hs Ht. rewrite !filtered_ec2_filter. apply filter_Subseq_impl.
    intros r _. now apply ec2_passes_mono.
Qed.

Lemma filter_engine_idempotent_and_monotone_witness :
  let narrow := Build_selection ["us-east-1"%string] ["running"%string]
                  ["m5.large"%string] [] [] in
  let wide := Build_selection ["us-east-1"%string; "us-west-2"%string]
                ["running"%string; "stopped"%string] [] [] [] in
  Subseq (filtered_ec2_of scenario1 narrow) (filtered_ec2_of scenario1 wide)
  /\ length (filtered_ec2_of scenario1 narrow) = 2%nat
  /\ length (filtered_ec2_of scenario1 wide) = 3%nat.
Proof.
  intros narrow wide.
  destruct (filter_engine_idempotent_and_monotone scenario1 narrow wide) as [_ T].
  refine (conj (T _ _ _) (conj eq_refl eq_refl)).
  - intros x [<-|[]]. simpl. auto.
  - intros x [<-|[]]. simpl. auto.
  - now left.
Defined.

(** ** The advisor tables *)

Lemma sort_values_nil `{SortValues} {A : Type} (key : A -> float) :
  sort_values key [] = [].
Proof. apply Permutation_nil, sort_values_perm. Qed.

Lemma filter_none {A : Type} (p : A -> bool) (l : list A) :
  (forall x, In x l -> p x = false) -> filter p l = [].
Proof.
  induction l as [|x l IH]; intros H; simpl; [reflexivity|].
  rewrite (H x (or_introl eq_refl)). apply IH. intros y Hy. apply H. now right.
Qed.

Lemma qualifying_ec2_map (view : list EC2.row) :
  underutilized_savings (underutilized_select view)
  = map (fun r => EC2.Build_savings_row r (Float.mul (EC2.CostUSD r) (Some 0.5)))
      (filter is_underutilized view).
Proof.
  unfold underutilized_savings. rewrite map_map, assign_map.
  now rewrite underutilized_select_filter.
Qed.

Lemma qualifying_s3_map (view : list S3.row) :
  expensive_savings (expensive_select view)
  = map (fun r => S3.Build_savings_row r (Float.mul (S3.TotalSizeGB r) (Some 0.01)))
      (filter is_oversized view).
Proof.
  unfold expensive_savings. rewrite map_map, assign_map.
  now rewrite expensive_select_filter.
Qed.

(** X4. The state and class widgets against the two heuristics.  Without
    "running" among the selected states no instance is underutilized: the
    table is empty and no hourly total is bound.  With a storage-class
    selection that leaves "STANDARD" out, the bucket table is empty and no
    monthly total is bound.  When "running" is the only selected state, the
    state test of the heuristic is redundant: the qualifying instances are
    the rows of the filtered view with CPUUtilization < 20. *)
Theorem heuristics_against_widgets `{SortValues} (g : cleaned) (w : selection) :
  let d := downstream g w in
  (~ In "running"%string (ec2_states w) ->
   underutilized_ec2 d = [] /\ total_savings_hr d = None)
  /\ (s3_classes w <> [] -> ~ In "STANDARD"%string (s3_classes w) ->
      expensive_s3 d = [] /\ total_savings_mo d = None)
  /\ (ec2_states w = ["running"%string] ->
      map EC2.base (qualifying_ec2 d)
      = filter (fun r => Float.lt (EC2.CPUUtilization r) (Some 20)) (filtered_ec2 d)).
Proof.
  intros d. subst d. unfold qualifying_ec2, downstream; cbn [underutilized_ec2 expensive_s3
    total_savings_hr total_savings_mo filtered_ec2].
  repeat match goal with |- _ /\ _ => split end.
  - intros N.
    assert (E : underutilized_savings (underutilized_select (filtered_ec2_of (df_ec2 g) w)) = []).
    { rewrite qualifying_ec2_map, filtered_ec2_filter, filter_none; [reflexivity|].
      intros r Hr. apply filter_In in Hr. destruct Hr as [_ Hr].
      apply ec2_passes_iff in Hr. destruct Hr as (_ & Hs & _).
      apply not_true_is_false. intros U. apply is_underutilized_iff in U.
      destruct U as [_ U]. rewrite U in Hs. contradiction. }
    unfold underutilized_top. rewrite E, sort_values_nil. split; reflexivity.
  - intros NE N.
    assert (E : expensive_savings (expensive_select (filtered_s3_of (df_s3 g) w)) = []).
    { rewrite qualifying_s3_map, filtered_s3_filter, filter_none; [reflexivity|].
      intros r Hr. apply filter_In in Hr. destruct Hr as [_ Hr].
      apply s3_passes_iff in Hr. destruct Hr as (_ & [Hc|Hc]); [contradiction|].
      apply not_true_is_false. intros U. apply is_oversized_iff in U.
      destruct U as [U _]. rewrite U in Hc. contradiction. }
    unfold expensive_top. rewrite E, sort_values_nil. split; reflexivity.
  - intros E. rewrite qualifying_ec2_map, map_map; simpl. rewrite map_id.
    rewrite filtered_ec2_filter. apply filter_ext_in. intros r Hr.
    apply filter_In in Hr. destruct Hr as [_ Hr].
    apply ec2_passes_iff in Hr. destruct Hr as (_ & Hs & _).
    rewrite E in Hs. destruct Hs as [Hs|[]].
    unfold is_underutilized. rewrite <- Hs. simpl. now rewrite andb_true_r.
Qed.

Lemma heuristics_against_widgets_witness :
  let stopped := Build_selection ["us-east-1"%string] ["stopped"%string] [] [] [] in
  let glacier := Build_selection [] [] [] ["us-east-1"%string] ["GLACIER"%string] in
  let running := Build_selection ["us-east-1"%string] ["running"%string] [] [] [] in
  let g := data_cleaning scenario1 scenario2 in
  (underutilized_ec2 (downstream g stopped) = []
   /\ total_savings_hr (downstream g stopped) = None)
  /\ (expensive_s3 (downstream g glacier) = []
      /\ total_savings_mo (downstream g glacier) = None)
  /\ map EC2.base (qualifying_ec2 (downstream g running))
     = filter (fun r => Float.lt (EC2.CPUUtilization r) (Some 20))
         (filtered_ec2 (downstream g running)).
Proof.
  intros stopped glacier running g.
  destruct (heuristics_against_widgets g stopped) as (T1 & _ & _).
  destruct (heuristics_against_widgets g glacier) as (_ & T2 & _).
  destruct (heuristics_against_widgets g running) as (_ & _ & T3).
  refine (conj (T1 _) (conj (T2 _ _) (T3 eq_refl))).
  - simpl. intros [E|[]]. discriminate.
  - discriminate.
  - simpl. intros [E|[]]. discriminate.
Defined.

Section SortedHead.
Context `{SortValues} {A : Type} (key : A -> float).

Lemma sort_values_strongly_sorted (l : list A) :
  StronglySorted (fun r1 r2 => goes_before (key r1) (key r2) = true) (sort_values key l).
Proof.
  apply Sorted_StronglySorted.
  - intros x y z. apply goes_before_trans.
  - apply sort_values_sorted.
Qed.

Lemma head_sort_values_largest (n : nat) (l : list A) :
  (length (head n (sort_values key l)) <= n)%nat
  /\ (exists rest,
        Permutation l (head n (sort_values key l) ++ rest)
        /\ (forall r e a b, In r (head n (sort_values key l)) -> In e rest ->
                            key r = Some a -> key e = Some b -> b <= a))
  /\ StronglySorted (fun r1 r2 => goes_before (key r1) (key r2) = true)
       (head n (sort_values key l)).
Proof.
  unfold head.
  pose proof (sort_values_strongly_sorted l) as S.
  rewrite <- (firstn_skipn n (sort_values key l)) in S.
  apply StronglySorted_app_inv in S. destruct S as [S1 S2].
  repeat match goal with |- _ /\ _ => split end.
  - apply firstn_le_length.
  - exists (skipn n (sort_values key l)). split.
    + rewrite firstn_skipn. apply sort_values_perm.
    + intros r e a b Hr He Ea Eb. specialize (S2 r e Hr He).
      rewrite Ea, Eb in S2. now apply Qle_bool_iff.
  - exact S1.
Qed.

End SortedHead.

(** X5. Each advisor table (lines 114 and 122) has at most ten rows, in
    descending order of the savings; its rows together with the qualifying
    rows it leaves out are the qualifying rows; and no row left out has a
    larger saving than a row shown. *)
Theorem advisor_tables_hold_largest_savings `{SortValues} (g : cleaned) (w : selection) :
  let d := downstream g w in
  ((length (underutilized_ec2 d) <= 10)%nat
   /\ (exists rest,
         Permutation (qualifying_ec2 d) (underutilized_ec2 d ++ rest)
         /\ (forall r e a b, In r (underutilized_ec2 d) -> In e rest ->
               EC2.SavingsPerHour r = Some a -> EC2.SavingsPerHour e = Some b -> b <= a))
   /\ StronglySorted
        (fun r1 r2 => goes_before (EC2.SavingsPerHour r1) (EC2.SavingsPerHour r2) = true)
        (underutilized_ec2 d))
  /\ ((length (expensive_s3 d) <= 10)%nat
      /\ (exists rest,
            Permutation (qualifying_s3 d) (expensive_s3 d ++ rest)
            /\ (forall r e a b, In r (expensive_s3 d) -> In e rest ->
                  S3.MonthlySavings r = Some a -> S3.MonthlySavings e = Some b -> b <= a))
      /\ StronglySorted
           (fun r1 r2 => goes_before (S3.MonthlySavings r1) (S3.MonthlySavings r2) = true)
           (expensive_s3 d)).
Proof.
  intros d. split.
  - apply (head_sort_values_largest EC2.SavingsPerHour 10 (qualifying_ec2 d)).
  - apply (head_sort_values_largest S3.MonthlySavings 10 (qualifying_s3 d)).
Qed.

Lemma advisor_tables_hold_largest_savings_witness :
  let d := snd (script eleven_idle [] all_of_eleven) in
  length (underutilized_ec2 d) = 10%nat
  /\ (length (underutilized_ec2 d) <= 10)%nat
  /\ exists rest,
       Permutation (qualifying_ec2 d) (underutilized_ec2 d ++ rest)
       /\ (forall r e a b, In r (underutilized_ec2 d) -> In e rest ->
             EC2.SavingsPerHour r = Some a -> EC2.SavingsPerHour e = Some b -> b <= a).
Proof.
  intros d.
  destruct (advisor_tables_hold_largest_savings (data_cleaning eleven_idle []) all_of_eleven)
    as [(T1 & T2 & _) _].
  exact (conj eq_refl (conj T1 T2)).
Defined.

Lemma Subseq_map {A B : Type} (f : A -> B) (l1 l2 : list A) :
  Subseq l1 l2 -> Subseq (map f l1) (map f l2).
Proof. induction 1; simpl; now constructor. Qed.

Lemma Subseq_firstn {A : Type} (n : nat) (l : list A) : Subseq (firstn n l) l.
Proof.
  revert n; induction l as [|x l IH]; intros [|n]; simpl.
  - constructor.
  - constructor.
  - apply Subseq_nil_l.
  - apply Subseq_keep, IH.
Qed.

(** ** The summaries against the filters and the cards *)

(** X8. The two summaries have one row per region, for the regions that are
    selected and have at least one row in the filtered view, and for no
    other: never more rows than selected regions, and none when no region is
    selected. *)
Theorem summaries_list_selected_regions `{SortValues} (g : cleaned) (w : selection) :
  let d := downstream g w in
  NoDup (map fst (avg_cost_region d))
  /\ (forall k, In k (map fst (avg_cost_region d)) <->
                In k (ec2_regions w) /\ exists r, In r (filtered_ec2 d) /\ EC2.Region r = k)
  /\ (length (avg_cost_region d) <= length (ec2_regions w))%nat
  /\ NoDup (map fst (total_storage_region d))
  /\ (forall k, In k (map fst (total_storage_region d)) <->
                In k (s3_regions w) /\ exists r, In r (filtered_s3 d) /\ S3.Region r = k)
  /\ (length (total_storage_region d) <= length (s3_regions w))%nat.
Proof.
  intros d. subst d. unfold downstream;
    cbn [avg_cost_region total_storage_region filtered_ec2 filtered_s3].
  unfold avg_cost_region_of, total_storage_region_of, group_mean, group_sum.
  rewrite !groupby_agg_keys.
  assert (K1 : forall k, In k (group_keys EC2.Region (filtered_ec2_of (df_ec2 g) w)) <->
                 In k (ec2_regions w)
                 /\ exists r, In r (filtered_ec2_of (df_ec2 g) w) /\ EC2.Region r = k).
  { intros k. rewrite group_keys_In, in_map_iff. split.
    - intros [r [E Hr]]. split; [|now exists r].
      rewrite filtered_ec2_filter in Hr. apply filter_In in Hr.
      destruct Hr as [_ Hr]. apply ec2_passes_iff in Hr. now rewrite <- E.
    - intros [_ [r [Hr E]]]. now exists r. }
  assert (K2 : forall k, In k (group_keys S3.Region (filtered_s3_of (df_s3 g) w)) <->
                 In k (s3_regions w)
                 /\ exists r, In r (filtered_s3_of (df_s3 g) w) /\ S3.Region r = k).
  { intros k. rewrite group_keys_In, in_map_iff. split.
    - intros [r [E Hr]]. split; [|now exists r].
      rewrite filtered_s3_filter in Hr. apply filter_In in Hr.
      destruct Hr as [_ Hr]. apply s3_passes_iff in Hr. now rewrite <- E.
    - intros [_ [r [Hr E]]]. now exists r. }
  repeat match goal with |- _ /\ _ => split end.
  - apply sorted_keys_NoDup, group_keys_sorted.
  - exact K1.
  - rewrite <- (length_map fst), groupby_agg_keys. apply NoDup_incl_length.
    + apply sorted_keys_NoDup, group_keys_sorted.
    + intros k Hk. now apply K1.
  - apply sorted_keys_NoDup, group_keys_sorted.
  - exact K2.
  - rewrite <- (length_map fst), groupby_agg_keys. apply NoDup_incl_length.
    + apply sorted_keys_NoDup, group_keys_sorted.
    + intros k Hk. now apply K2.
Qed.

(** ** More on the cleaning part *)

Lemma median_NaN_all_missing (s : list float) : Series.median s = NaN -> all_missing s.
Proof.
  intros E. apply all_missing_dropna.
  destruct (Series.dropna s) as [|a l] eqn:D; [reflexivity|].
  exfalso. apply (median_has_value s a); [|exact E].
  apply dropna_In. rewrite D. now left.
Qed.

Lemma filled_median_twice (s : list float) (x : float) :
  filled (Series.median (map (filled (Series.median s)) s)) (filled (Series.median s) x)
  = filled (Series.median s) x.
Proof.
  destruct x as [a|]; [reflexivity|].
  destruct (Series.median s) as [m|] eqn:E; [reflexivity|].
  apply median_NaN_all_missing in E.
  assert (M : Series.median (map (filled None) s) = None).
  { rewrite (all_missing_filled None s E). apply median_all_missing.
    unfold all_missing. apply Forall_map, Forall_forall. reflexivity. }
  rewrite M. reflexivity.
Qed.

Lemma filled_zero_twice (x : float) : filled (Some 0) (filled (Some 0) x) = filled (Some 0) x.
Proof. now destruct x. Qed.

(** X9. The cleaning of lines 53-58 is idempotent: run on frames it has
    already cleaned, it changes no cell. *)
Theorem cleaning_is_idempotent (raw_ec2 : list EC2.row) (raw_s3 : list S3.row) :
  clean_ec2 (clean_ec2 raw_ec2) = clean_ec2 raw_ec2
  /\ clean_s3 (clean_s3 raw_s3) = clean_s3 raw_s3.
Proof.
  split.
  - rewrite (clean_ec2_map (clean_ec2 raw_ec2)). rewrite !clean_ec2_map.
    rewrite !map_map. cbn [EC2.CPUUtilization EC2.MemoryUtilization EC2.CostUSD
      EC2.ResourceId EC2.InstanceType EC2.Region EC2.State EC2.CreationDate].
    apply map_ext. intros r.
    rewrite <- (map_map EC2.CPUUtilization
                 (filled (Series.median (map EC2.CPUUtilization raw_ec2)))).
    rewrite <- (map_map EC2.MemoryUtilization
                 (filled (Series.median (map EC2.MemoryUtilization raw_ec2)))).
    now rewrite !filled_median_twice, filled_zero_twice.
  - rewrite (clean_s3_map (clean_s3 raw_s3)). rewrite !clean_s3_map.
    rewrite !map_map. cbn [S3.BucketName S3.Region S3.StorageClass S3.TotalSizeGB
      S3.ObjectCount S3.CostUSD S3.CreationDate].
    apply map_ext. intros r. now rewrite !filled_zero_twice.
Qed.

Lemma isna_sum_none (s : list float) :
  (forall x, In x s -> x <> NaN) -> isna_sum s = 0%nat.
Proof.
  unfold isna_sum. induction s as [|[a|] s IH]; intros H; simpl; auto.
  - apply IH. intros x Hx. apply H. now right.
  - exfalso. now apply (H None (or_introl eq_refl)).
Qed.

Lemma isna_sum_all (s : list float) : all_missing s -> isna_sum s = length s.
Proof.
  unfold isna_sum, all_missing. induction 1 as [|x s Hx _ IH]; simpl; [reflexivity|].
  rewrite Hx. simpl. now rewrite IH.
Qed.

Lemma filled_column_counts (s : list float) :
  (isna_sum (map (filled (Series.median s)) s) = 0%nat /\ Series.median s <> NaN)
  \/ (isna_sum (map (filled (Series.median s)) s) = length s /\ all_missing s).
Proof.
  destruct (Series.median s) as [m|] eqn:E.
  - left. split; [|discriminate]. apply isna_sum_none.
    intros x Hx. apply in_map_iff in Hx. destruct Hx as [y [<- _]].
    now apply filled_not_missing.
  - right. apply median_NaN_all_missing in E. split; [|assumption].
    rewrite (all_missing_filled None s E).
    transitivity (length (map (fun _ : float => @None Q) s)); [|apply length_map].
    apply isna_sum_all.
    unfold all_missing. apply Forall_map, Forall_forall. reflexivity.
Qed.

(** X10. The "Missing Values" counts of tab 1 ([df.isna().sum()], read after
    the cleaning): 0 for CostUSD of both frames and for TotalSizeGB; for each
    utilization column 0, unless the loaded column had no value at all, in
    which case the count is the number of rows.  No count lies in between. *)
Theorem missing_value_counts (raw_ec2 : list EC2.row) (raw_s3 : list S3.row) :
  let g := data_cleaning raw_ec2 raw_s3 in
  isna_sum (map EC2.CostUSD (df_ec2 g)) = 0%nat
  /\ isna_sum (map S3.CostUSD (df_s3 g)) = 0%nat
  /\ isna_sum (map S3.TotalSizeGB (df_s3 g)) = 0%nat
  /\ ((isna_sum (map EC2.CPUUtilization (df_ec2 g)) = 0%nat
       /\ exists x, In (Some x) (map EC2.CPUUtilization raw_ec2))
      \/ (isna_sum (map EC2.CPUUtilization (df_ec2 g)) = length raw_ec2
          /\ all_missing (map EC2.CPUUtilization raw_ec2)))
  /\ ((isna_sum (map EC2.MemoryUtilization (df_ec2 g)) = 0%nat
       /\ exists x, In (Some x) (map EC2.MemoryUtilization raw_ec2))
      \/ (isna_sum (map EC2.MemoryUtilization (df_ec2 g)) = length raw_ec2
          /\ all_missing (map EC2.MemoryUtilization raw_ec2))).
Proof.
  intros g. subst g. unfold data_cleaning; cbn [df_ec2 df_s3].
  rewrite clean_ec2_map, clean_s3_map, !map_map.
  cbn [EC2.CostUSD EC2.CPUUtilization EC2.MemoryUtilization S3.CostUSD S3.TotalSizeGB].
  assert (V : forall s, Series.median s <> NaN -> exists x, In (Some x) s).
  { intros s N. destruct (Series.dropna s) as [|a l] eqn:D.
    - exfalso. apply N. apply median_all_missing. now apply all_missing_dropna.
    - exists a. apply dropna_In. rewrite D. now left. }
  repeat match goal with |- _ /\ _ => split end.
  - apply isna_sum_none. intros x Hx. apply in_map_iff in Hx.
    destruct Hx as [r [<- _]]. now apply filled_not_missing.
  - apply isna_sum_none. intros x Hx. apply in_map_iff in Hx.
    destruct Hx as [r [<- _]]. now apply filled_not_missing.
  - apply isna_sum_none. intros x Hx. apply in_map_iff in Hx.
    destruct Hx as [r [<- _]]. now apply filled_not_missing.
  - rewrite <- (map_map EC2.CPUUtilization
                 (filled (Series.median (map EC2.CPUUtilization raw_ec2)))).
    destruct (filled_column_counts (map EC2.CPUUtilization raw_ec2)) as [[E N]|[E M]].
    + left. split; [exact E | now apply V].
    + right. rewrite length_map in E. now split.
  - rewrite <- (map_map EC2.MemoryUtilization
                 (filled (Series.median (map EC2.MemoryUtilization raw_ec2)))).
    destruct (filled_column_counts (map EC2.MemoryUtilization raw_ec2)) as [[E N]|[E M]].
    + left. split; [exact E | now apply V].
    + right. rewrite length_map in E. now split.
Qed.

Lemma insert_asc_In (a x : Q) (l : list Q) :
  In x (Series.insert_asc a l) <-> x = a \/ In x l.
Proof.
  induction l as [|b l IH]; simpl; [intuition|].
  destruct (Qle_bool a b); simpl; [intuition | rewrite IH; intuition].
Qed.

Lemma sorted_values_In (s : list float) (x : Q) :
  In x (Series.sorted_values s) <-> In (Some x) s.
Proof.
  rewrite <- dropna_In. unfold Series.sorted_values.
  induction (Series.dropna s) as [|a l IH]; simpl; [tauto|].
  rewrite insert_asc_In, IH. intuition.
Qed.

Lemma median_within (s : list float) (lo hi m : Q) :
  (forall x, In (Some x) s -> lo <= x <= hi) ->
  Series.median s = Some m -> lo <= m <= hi.
Proof.
  intros B. unfold Series.median.
  assert (N : forall i, (i < length (Series.sorted_values s))%nat ->
                        lo <= nth i (Series.sorted_values s) 0 <= hi).
  { intros i Hi. apply B, sorted_values_In, nth_In, Hi. }
  destruct (length (Series.sorted_values s)) as [|n] eqn:L; [discriminate|].
  assert (H2 : (S n / 2 < S n)%nat) by (apply Nat.div_lt; lia).
  destruct (Nat.odd (S n)); intros E; injection E as <-.
  - change (fst (Nat.divmod n 1 0 0)) with (S n / 2)%nat. now apply N.
  - pose proof (N (S n / 2)%nat H2) as [A1 A2].
    pose proof (N (S n / 2 - 1)%nat ltac:(lia)) as [B1 B2].
    change (fst (Nat.divmod n 1 0 0)) with (S n / 2)%nat.
    split.
    + apply Qle_shift_div_l; [reflexivity | lra].
    + apply Qle_shift_div_r; [reflexivity | lra].
Qed.

(** X11. Imputation stays within the range of the data: when every
    utilization value of the loaded frame lies between two bounds (0 and 100
    for a percentage), so does every utilization value after the cleaning. *)
Theorem imputed_utilization_within_range (raw_ec2 : list EC2.row) (lo hi : Q) :
  (forall x, In (Some x) (map EC2.CPUUtilization raw_ec2) -> lo <= x <= hi) ->
  (forall x, In (Some x) (map EC2.MemoryUtilization raw_ec2) -> lo <= x <= hi) ->
  (forall x, In (Some x) (map EC2.CPUUtilization (clean_ec2 raw_ec2)) -> lo <= x <= hi)
  /\ (forall x, In (Some x) (map EC2.MemoryUtilization (clean_ec2 raw_ec2)) ->
                lo <= x <= hi).
Proof.
  intros Bc Bm. rewrite clean_ec2_map, !map_map.
  cbn [EC2.CPUUtilization EC2.MemoryUtilization].
  split; intros x Hx; apply in_map_iff in Hx; destruct Hx as [r [E Hr]].
  - destruct (EC2.CPUUtilization r) as [c|] eqn:Ec; cbn [filled isna] in E.
    + apply Bc. rewrite <- E, <- Ec. now apply in_map.
    + now apply (median_within _ lo hi x Bc).
  - destruct (EC2.MemoryUtilization r) as [c|] eqn:Ec; cbn [filled isna] in E.
    + apply Bm. rewrite <- E, <- Ec. now apply in_map.
    + now apply (median_within _ lo hi x Bm).
Qed.

Lemma imputed_utilization_within_range_witness :
  (forall x, In (Some x) (map EC2.CPUUtilization half_read_ec2) -> 0 <= x <= 100)
  /\ (forall x, In (Some x) (map EC2.MemoryUtilization half_read_ec2) -> 0 <= x <= 100)
  /\ (forall x, In (Some x) (map EC2.CPUUtilization (clean_ec2 half_read_ec2)) ->
                0 <= x <= 100)
  /\ (forall x, In (Some x) (map EC2.MemoryUtilization (clean_ec2 half_read_ec2)) ->
                0 <= x <= 100).
Proof.
  assert (H1 : forall x, In (Some x) (map EC2.CPUUtilization half_read_ec2) ->
                         0 <= x <= 100).
  { intros x [E|[E|[]]]; [injection E as <- | discriminate]. split; discriminate. }
  assert (H2 : forall x, In (Some x) (map EC2.MemoryUtilization half_read_ec2) ->
                         0 <= x <= 100).
  { intros x [E|[E|[]]]; [injection E as <- | discriminate]. split; discriminate. }
  destruct (imputed_utilization_within_range half_read_ec2 0 100 H1 H2) as [T1 T2].
  exact (conj H1 (conj H2 (conj T1 T2))).
Defined.

(** ** Quartiles and fences *)

Lemma insert_asc_sorted (a : Q) (l : list Q) :
  StronglySorted Qle l -> StronglySorted Qle (Series.insert_asc a l).
Proof.
  induction l as [|b l IH]; simpl; intros S.
  - repeat constructor.
  - destruct (Qle_bool a b) eqn:E.
    + apply Qle_bool_iff in E. constructor; [assumption|].
      constructor; [assumption|].
      apply StronglySorted_inv in S. destruct S as [_ F].
      rewrite Forall_forall in *. intros x Hx. apply Qle_trans with b; auto.
    + assert (L : b <= a).
      { apply Qlt_le_weak, Qnot_le_lt. intros L. apply Qle_bool_iff in L. congruence. }
      apply StronglySorted_inv in S. destruct S as [S F].
      constructor; [now apply IH|].
      rewrite Forall_forall in *. intros x Hx. apply insert_asc_In in Hx.
      destruct Hx as [->|Hx]; auto.
Qed.

Lemma sorted_values_sorted (s : list float) : StronglySorted Qle (Series.sorted_values s).
Proof.
  unfold Series.sorted_values.
  induction (Series.dropna s) as [|a l IH]; simpl; [constructor|].
  now apply insert_asc_sorted.
Qed.

Lemma nth_sorted_mono (v : list Q) (i j : nat) :
  StronglySorted Qle v -> (i <= j)%nat -> (j < length v)%nat ->
  nth i v 0 <= nth j v 0.
Proof.
  intros S. revert i j. induction S as [|a v S IH F]; intros i j Hij Hj.
  - simpl in Hj. lia.
  - destruct i as [|i], j as [|j]; simpl in *.
    + apply Qle_refl.
    + rewrite Forall_forall in F. apply F, nth_In. lia.
    + lia.
    + apply IH; lia.
Qed.

(** The rank below the quantile position, and the value the quantile takes
    between that rank and the next. *)
Lemma quantile_between (s : list float) (q : Q) :
  0 <= q <= 1 -> Series.dropna s <> [] ->
  let v := Series.sorted_values s in
  let h := inject_Z (Z.of_nat (length v - 1)) * q in
  let i := Z.to_nat (Qfloor h) in
  exists x, Series.quantile s q = Some x
            /\ x == nth i v 0 + (nth (Nat.min (i + 1) (length v - 1)) v 0 - nth i v 0)
                                * (h - inject_Z (Qfloor h))
            /\ (i <= length v - 1)%nat
            /\ (0 <= Qfloor h)%Z
            /\ nth i v 0 <= x <= nth (Nat.min (i + 1) (length v - 1)) v 0.
Proof.
  intros [Q0 Q1] NE v h i.
  assert (L : length v <> 0%nat).
  { unfold v. rewrite sorted_values_length. destruct (Series.dropna s); [congruence | discriminate]. }
  assert (H0 : 0 <= h).
  { unfold h. apply Qmult_le_0_compat; [|assumption].
    change 0 with (inject_Z 0). rewrite <- Zle_Qle. lia. }
  assert (H1 : h <= inject_Z (Z.of_nat (length v - 1))).
  { unfold h. rewrite <- (Qmult_1_r (inject_Z (Z.of_nat (length v - 1)))) at 2.
    rewrite !(Qmult_comm (inject_Z (Z.of_nat (length v - 1)))).
    apply Qmult_le_compat_r; [assumption|].
    change 0 with (inject_Z 0). rewrite <- Zle_Qle. lia. }
  assert (F0 : (0 <= Qfloor h)%Z).
  { change 0%Z with (Qfloor (inject_Z 0)). now apply Qfloor_resp_le. }
  assert (F1 : (Qfloor h <= Z.of_nat (length v - 1))%Z).
  { rewrite <- (Qfloor_Z (Z.of_nat (length v - 1))). now apply Qfloor_resp_le. }
  assert (I : (i <= length v - 1)%nat) by (unfold i; lia).
  pose proof (Qfloor_le h) as Fl. pose proof (Qlt_floor h) as Fu.
  rewrite inject_Z_plus in Fu.
  assert (M : nth i v 0 <= nth (Nat.min (i + 1) (length v - 1)) v 0).
  { apply nth_sorted_mono; [apply sorted_values_sorted | lia | lia]. }
  exists (nth i v 0 + (nth (Nat.min (i + 1) (length v - 1)) v 0 - nth i v 0)
                      * (h - inject_Z (Qfloor h))).
  repeat match goal with |- _ /\ _ => split end.
  - unfold Series.quantile. fold v. destruct (length v) eqn:E; [congruence|]. reflexivity.
  - reflexivity.
  - exact I.
  - exact F0.
  - change (inject_Z 1) with 1 in Fu. nra.
  - change (inject_Z 1) with 1 in Fu. nra.
Qed.

Lemma quartiles_ordered (s : list float) :
  Series.dropna s <> [] ->
  exists q1 q3, Series.quantile s 0.25 = Some q1 /\ Series.quantile s 0.75 = Some q3
                /\ q1 <= q3.
Proof.
  intros NE.
  destruct (quantile_between s 0.25 ltac:(lra) NE) as (q1 & E1 & V1 & I1 & F1 & B1).
  destruct (quantile_between s 0.75 ltac:(lra) NE) as (q3 & E3 & V3 & I3 & F3 & B3).
  exists q1, q3. split; [assumption|]. split; [assumption|].
  set (v := Series.sorted_values s) in *.
  set (n1 := inject_Z (Z.of_nat (length v - 1))) in *.
  assert (N0 : 0 <= n1).
  { unfold n1. change 0 with (inject_Z 0). rewrite <- Zle_Qle. lia. }
  assert (Hh : n1 * 0.25 <= n1 * 0.75) by nra.
  pose proof (Qfloor_resp_le _ _ Hh) as Fm.
  set (f1 := Qfloor (n1 * 0.25)) in *. set (f3 := Qfloor (n1 * 0.75)) in *.
  destruct (Z.eq_dec f1 f3) as [E|N].
  - rewrite V1, V3. rewrite <- E.
    assert (D : nth (Z.to_nat f1) v 0 <= nth (Nat.min (Z.to_nat f1 + 1) (length v - 1)) v 0)
      by (destruct B1 as [B1 B1']; now apply Qle_trans with q1).
    nra.
  - apply Qle_trans with (nth (Nat.min (Z.to_nat f1 + 1) (length v - 1)) v 0);
      [apply B1|].
    apply Qle_trans with (nth (Z.to_nat f3) v 0); [|apply B3].
    assert (L : length v <> 0%nat).
    { unfold v. rewrite sorted_values_length.
      destruct (Series.dropna s); [congruence | discriminate]. }
    apply nth_sorted_mono; [apply sorted_values_sorted | lia | lia].
Qed.

Lemma within_fences_iff (q1 q3 x : Q) (s : list float) :
  Series.quantile s 0.25 = Some q1 -> Series.quantile s 0.75 = Some q3 ->
  within (fences s) (Some x) = true <->
  q1 - 1.5 * (q3 - q1) <= x <= q3 + 1.5 * (q3 - q1).
Proof.
  intros E1 E3. unfold fences, within. rewrite E1, E3. simpl.
  rewrite andb_true_iff, !Qle_bool_iff. reflexivity.
Qed.

Lemma column_has_value {A : Type} (df : list A) (col : A -> float) (r : A) (x : Q) :
  In r df -> col r = Some x -> Series.dropna (map col df) <> [].
Proof.
  intros Hr E N. assert (I : In x (Series.dropna (map col df))).
  { apply dropna_In. rewrite <- E. now apply in_map. }
  rewrite N in I. contradiction.
Qed.

(** X12. Outlier removal on a column that has a value: Q1 is at most Q3, so
    the fences enclose the quartiles; every row whose value lies between Q1
    and Q3 is kept, and every row kept has a value between the fences
    Q1 - 1.5 IQR and Q3 + 1.5 IQR (a row with no value is never kept). *)
Theorem rows_between_quartiles_are_kept {A : Type} (df : list A) (col : A -> float) :
  (exists r x, In r df /\ col r = Some x) ->
  exists q1 q3,
    Series.quantile (map col df) 0.25 = Some q1
    /\ Series.quantile (map col df) 0.75 = Some q3
    /\ q1 <= q3
    /\ (forall r x, In r df -> col r = Some x -> q1 <= x <= q3 ->
                    In r (remove_outliers df col))
    /\ (forall r, In r (remove_outliers df col) ->
                  exists x, col r = Some x
                            /\ q1 - 1.5 * (q3 - q1) <= x <= q3 + 1.5 * (q3 - q1)).
Proof.
  intros (r0 & x0 & Hr0 & E0).
  destruct (quartiles_ordered (map col df) (column_has_value df col r0 x0 Hr0 E0))
    as (q1 & q3 & E1 & E3 & L).
  exists q1, q3. rewrite remove_outliers_filter.
  repeat match goal with |- _ /\ _ => split end; try assumption.
  - intros r x Hr E B. apply filter_In. split; [assumption|].
    rewrite E. apply (within_fences_iff q1 q3 x _ E1 E3). lra.
  - intros r Hr. apply filter_In in Hr. destruct Hr as [_ W].
    destruct (col r) as [x|].
    + exists x. split; [reflexivity|]. now apply (within_fences_iff q1 q3 x _ E1 E3).
    + unfold within in W. simpl in W. destruct (fst (fences (map col df))); discriminate.
Qed.

Lemma rows_between_quartiles_are_kept_witness :
  exists q1 q3,
    Series.quantile (map (fun x => x) seven_values) 0.25 = Some q1
    /\ Series.quantile (map (fun x => x) seven_values) 0.75 = Some q3
    /\ q1 <= q3
    /\ q1 == 2.5 /\ q3 == 7.
Proof.
  destruct (rows_between_quartiles_are_kept seven_values (fun x => x))
    as (q1 & q3 & E1 & E3 & L & _).
  - exists (Some 1), 1. split; [now left | reflexivity].
  - exists q1, q3. repeat match goal with |- _ /\ _ => split end; try assumption.
    + vm_compute in E1. injection E1 as <-. reflexivity.
    + vm_compute in E3. injection E3 as <-. reflexivity.
Defined.

(** X13. A column whose values are all equal has no outlier: outlier removal
    returns the frame unchanged (Q1 = Q3, and both fences are that value). *)
Theorem constant_column_has_no_outlier {A : Type} (df : list A) (col : A -> float) (c : Q) :
  (forall r, In r df -> exists x, col r = Some x /\ x == c) ->
  remove_outliers df col = df.
Proof.
  intros C. destruct df as [|r0 df0] eqn:D; [reflexivity|]. rewrite <- D in *.
  assert (Hr0 : In r0 df) by (rewrite D; now left).
  destruct (C r0 Hr0) as (x0 & E0 & _).
  pose proof (column_has_value df col r0 x0 Hr0 E0) as NE.
  assert (V : forall i, (i <= length (Series.sorted_values (map col df)) - 1)%nat ->
                        nth i (Series.sorted_values (map col df)) 0 == c).
  { intros i Hi.
    assert (L : length (Series.sorted_values (map col df)) <> 0%nat).
    { rewrite sorted_values_length. destruct (Series.dropna (map col df));
        [congruence | discriminate]. }
    assert (I : In (nth i (Series.sorted_values (map col df)) 0)
                  (Series.sorted_values (map col df))) by (apply nth_In; lia).
    apply sorted_values_In, in_map_iff in I. destruct I as (r & E & Hr).
    destruct (C r Hr) as (x & Ex & Hx). rewrite Ex in E. injection E as E.
    now rewrite <- E. }
  destruct (quantile_between (map col df) 0.25 ltac:(lra) NE) as (q1 & E1 & _ & I1 & _ & B1).
  destruct (quantile_between (map col df) 0.75 ltac:(lra) NE) as (q3 & E3 & _ & I3 & _ & B3).
  rewrite (V _ I1), (V _ (Nat.le_min_r _ _)) in B1.
  rewrite (V _ I3), (V _ (Nat.le_min_r _ _)) in B3.
  rewrite remove_outliers_filter. apply filter_all. intros r Hr.
  destruct (C r Hr) as (x & Ex & Hx). rewrite Ex.
  apply (within_fences_iff q1 q3 x _ E1 E3). lra.
Qed.

Lemma constant_column_has_no_outlier_witness :
  (forall r, In r eleven_idle -> exists x, EC2.CostUSD r = Some x /\ x == 2)
  /\ remove_outliers eleven_idle EC2.CostUSD = eleven_idle.
Proof.
  assert (C : forall r, In r eleven_idle -> exists x, EC2.CostUSD r = Some x /\ x == 2).
  { intros r Hr. apply repeat_spec in Hr. subst r. exists 2. split; reflexivity. }
  exact (conj C (constant_column_has_no_outlier eleven_idle EC2.CostUSD 2 C)).
Defined.

(** ** Empty views, and the top-five tables *)

(** X15. The top-five tables against the count cards: each has five rows
    when the filtered view has at least five and as many rows as the view
    otherwise, and each of its rows is the four listed columns of a row of
    the filtered view. *)
Theorem top5_tables_against_cards `{SortValues} (g : cleaned) (w : selection) :
  let d := downstream g w in
  length (top5_ec2 d) = Nat.min 5 (kpi_ec2_instances d)
  /\ length (top5_s3 d) = Nat.min 5 (kpi_s3_buckets d)
  /\ (forall row, In row (top5_ec2 d) ->
        exists r, In r (filtered_ec2 d) /\ row = EC2.top_columns r)
  /\ (forall row, In row (top5_s3 d) ->
        exists r, In r (filtered_s3 d) /\ row = S3.top_columns r).
Proof.
  intros d. subst d. unfold downstream;
    cbn [filtered_ec2 filtered_s3 top5_ec2 top5_s3 kpi_ec2_instances kpi_s3_buckets].
  unfold top5_ec2_of, top5_s3_of, nlargest, head.
  repeat match goal with |- _ /\ _ => split end.
  - rewrite length_map, length_firstn.
    now rewrite <- (Permutation_length (stable_sort_desc_perm EC2.CostUSD _)).
  - rewrite length_map, length_firstn.
    now rewrite <- (Permutation_length (stable_sort_desc_perm S3.TotalSizeGB _)).
  - intros row Hrow. apply in_map_iff in Hrow. destruct Hrow as (r & E & Hr).
    exists r. split; [|now symmetry].
    apply (Permutation_in _ (Permutation_sym (stable_sort_desc_perm EC2.CostUSD _))).
    eapply Subseq_In; [apply Subseq_firstn | exact Hr].
  - intros row Hrow. apply in_map_iff in Hrow. destruct Hrow as (r & E & Hr).
    exists r. split; [|now symmetry].
    apply (Permutation_in _ (Permutation_sym (stable_sort_desc_perm S3.TotalSizeGB _))).
    eapply Subseq_In; [apply Subseq_firstn | exact Hr].
Qed.

(** * The totals, the summaries on doubles, and the raises *)

(** ** The headline total on eleven qualifying instances *)

Lemma underutilized_table_is_head `{SortValues} (g : cleaned) (w : selection) :
  underutilized_ec2 (downstream g w)
  = head 10 (sort_values EC2.SavingsPerHour (qualifying_ec2 (downstream g w))).
Proof. reflexivity. Qed.

Lemma total_savings_hr_is_table_sum `{SortValues} (g : cleaned) (w : selection) :
  total_savings_hr (downstream g w)
  = total_savings_hr_of (underutilized_ec2 (downstream g w)).
Proof. reflexivity. Qed.

(** C1. The headline total is the sum of the savings over every qualifying
    row: not in the script.  On eleven running instances at 10% CPU costing 2
    each (and the three buckets of scenario 2), with the widgets untouched,
    all eleven rows qualify and their savings add up to 11, but line 114 has
    rebound [underutilized_ec2] to ten of them and line 217 binds
    [total_savings_hr] to 10, whatever arrangement [sort_values] returns. *)
Theorem headline_total_misses_eleventh_instance `{SortValues} :
  let d := snd (script eleven_idle scenario2 eleven_and_buckets) in
  sidebar_defaults (clean_ec2 eleven_idle) (clean_s3 scenario2) = Some eleven_and_buckets
  /\ length (qualifying_ec2 d) = 11%nat
  /\ feq (Series.sum (map EC2.SavingsPerHour (qualifying_ec2 d))) (Some 11)
  /\ length (underutilized_ec2 d) = 10%nat
  /\ (exists t, total_savings_hr d = Some t /\ feq t (Some 10))
  /\ ~ headline_hr_sums_all_qualifying d.
Proof.
  intros d. unfold script in d. cbn [snd] in d.
  set (s := EC2.Build_savings_row
              (EC2.Build_row "i" "m5.large" "us-east-1" "running"
                 (Some 10) (Some 50) (Some 2) 0)
              (Float.mul (Some 2) (Some 0.5))).
  assert (Q : qualifying_ec2 d = repeat s 11).
  { unfold qualifying_ec2, d, downstream. cbn [filtered_ec2]. vm_compute. reflexivity. }
  assert (T : underutilized_ec2 d = repeat s 10).
  { unfold d at 1. rewrite underutilized_table_is_head. fold d. rewrite Q.
    rewrite (Permutation_repeat _ _
               (Permutation_sym (sort_values_perm _ EC2.SavingsPerHour (repeat s 11)))).
    reflexivity. }
  assert (E : total_savings_hr d = total_savings_hr_of (repeat s 10)).
  { unfold d at 1. rewrite total_savings_hr_is_table_sum. fold d. now rewrite T. }
  repeat match goal with |- _ /\ _ => split end.
  - vm_compute. reflexivity.
  - now rewrite Q.
  - rewrite Q. vm_compute. reflexivity.
  - now rewrite T.
  - rewrite E. eexists. split; [reflexivity|]. vm_compute. reflexivity.
  - unfold headline_hr_sums_all_qualifying. rewrite E, Q. vm_compute. discriminate.
Qed.

(** ** The region summaries on doubles *)

Lemma keys_of_In (s : list (option string)) (k : string) :
  In k (keys_of s) <-> In (Some k) s.
Proof.
  induction s as [|[a|] s IH]; simpl.
  - tauto.
  - rewrite IH. split; (intros [E|H]; [left; congruence | now right]).
  - rewrite IH. split; [now right | intros [E|H]; [discriminate | assumption]].
Qed.

Lemma keys_of_perm (s s' : list (option string)) :
  Permutation s s' -> Permutation (keys_of s) (keys_of s').
Proof.
  induction 1 as [|x l l' _ IH|x y l|l l' l'' _ IH1 _ IH2]; simpl.
  - constructor.
  - destruct x; [now constructor | assumption].
  - destruct x, y; try reflexivity. apply perm_swap.
  - now transitivity (keys_of l').
Qed.

Section GroupByAnyFacts.
Context {A V : Type} (by_ : A -> option string) (val : A -> V) (agg : list V -> V).

Lemma region_keys_In (df : list A) (k : string) :
  In k (group_keys (fun k : string => k) (keys_of (map by_ df))) <->
  In (Some k) (map by_ df).
Proof. now rewrite group_keys_In, map_id, keys_of_In. Qed.

Lemma groupby_any_keys (df : list A) :
  map fst (groupby_any by_ val agg df)
  = group_keys (fun k : string => k) (keys_of (map by_ df)).
Proof. unfold groupby_any. rewrite map_map. simpl. apply map_id. Qed.

Lemma groupby_any_In (df : list A) (k : string) (v : V) :
  In (k, v) (groupby_any by_ val agg df) <->
  In (Some k) (map by_ df) /\ v = agg (map val (group_rows by_ k df)).
Proof.
  unfold groupby_any. rewrite in_map_iff, <- region_keys_In. split.
  - intros [k' [E Hk]]. injection E as -> <-. auto.
  - intros [Hk ->]. now exists k.
Qed.

Lemma group_rows_In (df : list A) (k : string) (r : A) :
  In r (group_rows by_ k df) <-> In r df /\ by_ r = Some k.
Proof.
  unfold group_rows. rewrite filter_In. destruct (by_ r) as [k'|].
  - rewrite String.eqb_eq. split; intros [H E]; (split; [assumption | congruence]).
  - split; intros [H E]; discriminate.
Qed.

Lemma group_rows_nonempty (df : list A) (k : string) :
  In (Some k) (map by_ df) <-> group_rows by_ k df <> [].
Proof.
  split.
  - intros H N. apply in_map_iff in H. destruct H as [r [E Hr]].
    assert (I : In r (group_rows by_ k df)) by (apply group_rows_In; now split).
    rewrite N in I. contradiction.
  - intros N. destruct (group_rows by_ k df) as [|r l] eqn:E; [contradiction|].
    assert (I : In r (group_rows by_ k df)) by (rewrite E; now left).
    apply group_rows_In in I. destruct I as [Hr Ek]. rewrite <- Ek. now apply in_map.
Qed.

Lemma region_keys_of_groups (df df' : list A) :
  (forall k, group_rows by_ k df' = group_rows by_ k df) ->
  group_keys (fun k : string => k) (keys_of (map by_ df'))
  = group_keys (fun k : string => k) (keys_of (map by_ df)).
Proof.
  intros G. apply sorted_keys_unique; try apply group_keys_sorted.
  intros k. rewrite !region_keys_In, !group_rows_nonempty. now rewrite G.
Qed.

Lemma groupby_any_of_groups (df df' : list A) :
  (forall k, group_rows by_ k df' = group_rows by_ k df) ->
  groupby_any by_ val agg df' = groupby_any by_ val agg df.
Proof.
  intros G. unfold groupby_any. rewrite (region_keys_of_groups df df' G).
  apply map_ext. intros k. now rewrite G.
Qed.

Lemma groupby_any_perm (df df' : list A) :
  Permutation df df' ->
  map fst (groupby_any by_ val agg df') = map fst (groupby_any by_ val agg df)
  /\ forall k, Permutation (map val (group_rows by_ k df)) (map val (group_rows by_ k df')).
Proof.
  intros P. split.
  - rewrite !groupby_any_keys. symmetry. apply group_keys_perm.
    now apply keys_of_perm, Permutation_map.
  - intros k. unfold group_rows. now apply Permutation_map, filter_perm.
Qed.

Lemma groupby_any_NoDup (df : list A) : NoDup (map fst (groupby_any by_ val agg df)).
Proof. rewrite groupby_any_keys. apply sorted_keys_NoDup, group_keys_sorted. Qed.

End GroupByAnyFacts.

(** Three buckets of one region in two row orders: the region's sum is
    1010.8099999999999 in one and 1010.8100000000001 in the other. *)
Lemma region_sum_depends_on_row_order :
  Permutation F64.three_buckets F64.three_buckets_moved
  /\ (exists x y,
        F64.total_storage_region_of F64.three_buckets = [("eu-west-1"%string, x)]
        /\ F64.total_storage_region_of F64.three_buckets_moved = [("eu-west-1"%string, y)]
        /\ PrimFloat.ltb x y = true)
  /\ F64.total_storage_region_of F64.three_buckets
     <> F64.total_storage_region_of F64.three_buckets_moved.
Proof.
  repeat match goal with |- _ /\ _ => split end.
  - unfold F64.three_buckets, F64.three_buckets_moved.
    apply Permutation_sym, (Permutation_cons_app [_; _] []). reflexivity.
  - eexists. eexists. split; [vm_compute; reflexivity|].
    split; [vm_compute; reflexivity|]. vm_compute. reflexivity.
  - intros E.
    assert (F : match F64.total_storage_region_of F64.three_buckets,
                      F64.total_storage_region_of F64.three_buckets_moved with
                | (_, x) :: _, (_, y) :: _ => PrimFloat.eqb x y
                | _, _ => true
                end = false) by (vm_compute; reflexivity).
    rewrite E in F. vm_compute in F. discriminate.
Qed.

(** C7, as the script computes it.  [avg_cost_region] and
    [total_storage_region] have one row per distinct region of the view, in
    sorted order, carrying the mean (resp. the sum) of that region's values
    as the group-by accumulates them in row order; a row without a region
    belongs to no group.  Under a permutation of
    the rows the regions stay the same and each region keeps the same values;
    the summaries are identical when the permutation keeps the rows of each
    region in their relative order.  Scenario 3 yields us-east 15.0 and
    us-west 30.0. *)
Theorem region_summaries_one_row_per_region
  (view view' : list F64.EC2.row) (sview sview' : list F64.S3.row) :
  NoDup (map fst (F64.avg_cost_region_of view))
  /\ (forall k, In k (map fst (F64.avg_cost_region_of view)) <->
                In (Some k) (map F64.EC2.Region view))
  /\ (forall k v, In (k, v) (F64.avg_cost_region_of view) <->
                  In (Some k) (map F64.EC2.Region view)
                  /\ v = F64.mean (map F64.EC2.CostUSD (group_rows F64.EC2.Region k view)))
  /\ (Permutation view view' ->
      map fst (F64.avg_cost_region_of view') = map fst (F64.avg_cost_region_of view)
      /\ forall k, Permutation (map F64.EC2.CostUSD (group_rows F64.EC2.Region k view))
                               (map F64.EC2.CostUSD (group_rows F64.EC2.Region k view')))
  /\ ((forall k, group_rows F64.EC2.Region k view' = group_rows F64.EC2.Region k view) ->
      F64.avg_cost_region_of view' = F64.avg_cost_region_of view)
  /\ NoDup (map fst (F64.total_storage_region_of sview))
  /\ (forall k, In k (map fst (F64.total_storage_region_of sview)) <->
                In (Some k) (map F64.S3.Region sview))
  /\ (forall k v, In (k, v) (F64.total_storage_region_of sview) <->
                  In (Some k) (map F64.S3.Region sview)
                  /\ v = F64.sum (map F64.S3.TotalSizeGB (group_rows F64.S3.Region k sview)))
  /\ (Permutation sview sview' ->
      map fst (F64.total_storage_region_of sview')
      = map fst (F64.total_storage_region_of sview)
      /\ forall k, Permutation (map F64.S3.TotalSizeGB (group_rows F64.S3.Region k sview))
                               (map F64.S3.TotalSizeGB (group_rows F64.S3.Region k sview')))
  /\ ((forall k, group_rows F64.S3.Region k sview' = group_rows F64.S3.Region k sview) ->
      F64.total_storage_region_of sview' = F64.total_storage_region_of sview)
  /\ F64.avg_cost_region_of F64.scenario3
     = [("us-east"%string, F64.of_Z 15); ("us-west"%string, F64.of_Z 30)].
Proof.
  unfold F64.avg_cost_region_of, F64.total_storage_region_of.
  repeat match goal with |- _ /\ _ => split end.
  - apply groupby_any_NoDup.
  - intros k. rewrite groupby_any_keys. apply region_keys_In.
  - intros k v. apply groupby_any_In.
  - apply groupby_any_perm.
  - apply groupby_any_of_groups.
  - apply groupby_any_NoDup.
  - intros k. rewrite groupby_any_keys. apply region_keys_In.
  - intros k v. apply groupby_any_In.
  - apply groupby_any_perm.
  - apply groupby_any_of_groups.
  - vm_compute. reflexivity.
Qed.

Lemma region_summaries_one_row_per_region_witness :
  Permutation F64.scenario3 F64.scenario3_west_first
  /\ (forall k, group_rows F64.EC2.Region k F64.scenario3_west_first
                = group_rows F64.EC2.Region k F64.scenario3)
  /\ map fst (F64.avg_cost_region_of F64.scenario3_west_first)
     = map fst (F64.avg_cost_region_of F64.scenario3)
  /\ F64.avg_cost_region_of F64.scenario3_west_first
     = F64.avg_cost_region_of F64.scenario3
  /\ Permutation F64.three_buckets F64.three_buckets_moved
  /\ map fst (F64.total_storage_region_of F64.three_buckets_moved)
     = map fst (F64.total_storage_region_of F64.three_buckets)
  /\ F64.total_storage_region_of F64.three_buckets
     = F64.total_storage_region_of F64.three_buckets.
Proof.
  assert (P : Permutation F64.scenario3 F64.scenario3_west_first).
  { unfold F64.scenario3, F64.scenario3_west_first.
    apply Permutation_sym, (Permutation_cons_app [_; _] []). reflexivity. }
  assert (G : forall k, group_rows F64.EC2.Region k F64.scenario3_west_first
                        = group_rows F64.EC2.Region k F64.scenario3).
  { intros k. unfold group_rows, F64.scenario3, F64.scenario3_west_first.
    cbn [filter F64.EC2.Region].
    destruct (String.eqb_spec "us-west" k) as [W|W],
             (String.eqb_spec "us-east" k) as [E|E]; try reflexivity.
    rewrite <- W in E. discriminate. }
  assert (P3 : Permutation F64.three_buckets F64.three_buckets_moved).
  { unfold F64.three_buckets, F64.three_buckets_moved.
    apply Permutation_sym, (Permutation_cons_app [_; _] []). reflexivity. }
  destruct (region_summaries_one_row_per_region
              F64.scenario3 F64.scenario3_west_first
              F64.three_buckets F64.three_buckets_moved)
    as (_ & _ & _ & T1 & T2 & _ & _ & _ & T3 & _).
  destruct (region_summaries_one_row_per_region
              F64.scenario3 F64.scenario3
              F64.three_buckets F64.three_buckets)
    as (_ & _ & _ & _ & _ & _ & _ & _ & _ & T4 & _).
  exact (conj P (conj G (conj (proj1 (T1 P)) (conj (T2 G)
          (conj P3 (conj (proj1 (T3 P3)) (T4 (fun _ => eq_refl)))))))).
Defined.

(** ** The untouched sidebar *)

Lemma has_running_iff (df_ec2 : list EC2.row) :
  existsb (String.eqb "running") (unique (map EC2.State df_ec2)) = true <->
  exists r, In r df_ec2 /\ EC2.State r = "running"%string.
Proof.
  rewrite existsb_exists. split.
  - intros [x [Hx E]]. apply String.eqb_eq in E. subst x.
    apply unique_In, in_map_iff in Hx. destruct Hx as [r [E Hr]]. now exists r.
  - intros [r [Hr E]]. exists "running"%string. split; [|apply String.eqb_refl].
    apply unique_In. rewrite <- E. now apply in_map.
Qed.

(** X2. The sidebar left untouched.  Line 78 raises when no row of the
    compute frame has the State "running", its default not being among its
    options.  Otherwise the widgets return all regions, "running", no
    instance type and no storage class, and then the filtered compute view
    is the running rows of the frame, which is not empty, and the filtered
    storage view is the whole storage frame. *)
Theorem default_widgets_keep_running_rows (df_ec2 : list EC2.row) (df_s3 : list S3.row) :
  (sidebar_defaults df_ec2 df_s3 = None <->
   forall r, In r df_ec2 -> EC2.State r <> "running"%string)
  /\ forall w, sidebar_defaults df_ec2 df_s3 = Some w ->
       w = default_selection df_ec2 df_s3
       /\ filtered_ec2_of df_ec2 w
          = filter (fun r => String.eqb (EC2.State r) "running") df_ec2
       /\ filtered_ec2_of df_ec2 w <> []
       /\ filtered_s3_of df_s3 w = df_s3.
Proof.
  unfold sidebar_defaults.
  destruct (existsb (String.eqb "running") (unique (map EC2.State df_ec2))) eqn:R.
  - apply has_running_iff in R. destruct R as [r0 [Hr0 E0]]. split.
    + split; [discriminate|]. intros N. exfalso. now apply (N r0).
    + intros w E. injection E as <-.
      assert (F : filtered_ec2_of df_ec2 (default_selection df_ec2 df_s3)
                  = filter (fun r => String.eqb (EC2.State r) "running") df_ec2).
      { rewrite filtered_ec2_filter. apply filter_ext_in. intros r Hr.
        unfold ec2_passes, default_selection; simpl.
        rewrite andb_true_r, orb_false_r.
        replace (isin_b (EC2.Region r) (unique (map EC2.Region df_ec2))) with true;
          [reflexivity|].
        symmetry. apply isin_b_In, unique_In, in_map, Hr. }
      repeat match goal with |- _ /\ _ => split end.
      * reflexivity.
      * exact F.
      * rewrite F. intros N.
        assert (I : In r0 (filter (fun r => String.eqb (EC2.State r) "running") df_ec2)).
        { apply filter_In. split; [assumption | now apply String.eqb_eq]. }
        rewrite N in I. contradiction.
      * rewrite filtered_s3_filter. apply filter_all. intros r Hr.
        unfold s3_passes, default_selection; simpl.
        rewrite andb_true_r. apply isin_b_In, unique_In, in_map, Hr.
  - split; [|discriminate]. split; [|reflexivity]. intros _ r Hr E.
    assert (T : existsb (String.eqb "running") (unique (map EC2.State df_ec2)) = true)
      by (apply has_running_iff; now exists r).
    congruence.
Qed.

Lemma default_widgets_keep_running_rows_witness :
  sidebar_defaults scenario1 scenario2 = Some (default_selection scenario1 scenario2)
  /\ length (filtered_ec2_of scenario1 (default_selection scenario1 scenario2)) = 2%nat
  /\ filtered_ec2_of scenario1 (default_selection scenario1 scenario2) <> []
  /\ filtered_s3_of scenario2 (default_selection scenario1 scenario2) = scenario2
  /\ sidebar_defaults [blank_ec2; blank_ec2] scenario2
     = Some (default_selection [blank_ec2; blank_ec2] scenario2)
  /\ sidebar_defaults
       [EC2.Build_row "C" "m5.large" "us-east-1" "stopped" (Some 5) (Some 50) (Some 40) 0]
       scenario2 = None.
Proof.
  assert (E : sidebar_defaults scenario1 scenario2
              = Some (default_selection scenario1 scenario2)) by reflexivity.
  destruct (default_widgets_keep_running_rows scenario1 scenario2) as [_ T].
  destruct (T _ E) as (_ & _ & T2 & T3).
  destruct (default_widgets_keep_running_rows
              [EC2.Build_row "C" "m5.large" "us-east-1" "stopped" (Some 5) (Some 50) (Some 40) 0]
              scenario2) as [[_ T4] _].
  refine (conj E (conj eq_refl (conj T2 (conj T3 (conj eq_refl (T4 _)))))).
  intros r [<-|[]]. discriminate.
Defined.

(** ** Empty views of loaded frames *)

(** X14. On frames that hold rows, when the filtered compute view is empty
    (no region or no state selected, or no row matching), the top-five table,
    the region summary and the advisor table are empty, the two compute cards
    show 0 and no hourly total is bound, tab 5 taking the branch "No
    underutilized instances found!".  The same holds of the storage view. *)
Theorem empty_view_gives_empty_page `{SortValues} (g : cleaned) (w : selection) :
  df_ec2 g <> [] -> df_s3 g <> [] ->
  let d := downstream g w in
  (filtered_ec2 d = [] ->
   top5_ec2 d = [] /\ avg_cost_region d = [] /\ underutilized_ec2 d = []
   /\ total_savings_hr d = None
   /\ kpi_ec2_instances d = 0%nat /\ kpi_total_ec2_cost d = Some 0)
  /\ (filtered_s3 d = [] ->
      top5_s3 d = [] /\ total_storage_region d = [] /\ expensive_s3 d = []
      /\ total_savings_mo d = None
      /\ kpi_s3_buckets d = 0%nat /\ kpi_total_s3_storage d = Some 0).
Proof.
  intros _ _ d. subst d. unfold downstream;
    cbn [filtered_ec2 filtered_s3 top5_ec2 top5_s3 avg_cost_region total_storage_region
         underutilized_ec2 expensive_s3 total_savings_hr total_savings_mo
         kpi_ec2_instances kpi_s3_buckets kpi_total_ec2_cost kpi_total_s3_storage].
  split; intros E; rewrite E.
  - unfold underutilized_top.
    change (underutilized_savings (underutilized_select [])) with (@nil EC2.savings_row).
    rewrite sort_values_nil. repeat split.
  - unfold expensive_top.
    change (expensive_savings (expensive_select [])) with (@nil S3.savings_row).
    rewrite sort_values_nil. repeat split.
Qed.

Lemma empty_view_gives_empty_page_witness :
  let g := data_cleaning scenario1 scenario2 in
  let w := Build_selection [] ["running"%string] [] [] [] in
  df_ec2 g <> [] /\ df_s3 g <> []
  /\ filtered_ec2 (downstream g w) = []
  /\ filtered_s3 (downstream g w) = []
  /\ total_savings_hr (downstream g w) = None
  /\ kpi_total_ec2_cost (downstream g w) = Some 0
  /\ total_savings_mo (downstream g w) = None
  /\ kpi_total_s3_storage (downstream g w) = Some 0.
Proof.
  intros g w.
  assert (N1 : df_ec2 g <> []) by discriminate.
  assert (N2 : df_s3 g <> []) by discriminate.
  assert (E1 : filtered_ec2 (downstream g w) = []) by reflexivity.
  assert (E2 : filtered_s3 (downstream g w) = []) by reflexivity.
  destruct (empty_view_gives_empty_page g w N1 N2) as [T1 T2].
  destruct (T1 E1) as (_ & _ & _ & A & _ & B).
  destruct (T2 E2) as (_ & _ & _ & C & _ & D).
  exact (conj N1 (conj N2 (conj E1 (conj E2 (conj A (conj B (conj C D))))))).
Defined.

(** ** Loading *)

(** X16. The loading part binds the two frames exactly when the folder and
    the two files exist and both [read_csv] calls return, to what they return
    on data/aws_resources_compute.csv and data/aws_resources_S3.csv.  A
    missing folder stops the script with the folder message and a missing
    compute file with the EC2 message.  The compute file is read before the
    storage path is looked at: when that read raises, the script raises
    whether or not the storage file exists, and the S3 message is shown only
    after the compute file has been read. *)
Theorem loading_stops_at_first_missing_path (exists_ : string -> bool)
  (read_csv_ec2 : string -> option (list EC2.row))
  (read_csv_s3 : string -> option (list S3.row)) :
  let run := data_loading exists_ read_csv_ec2 read_csv_s3 in
  let ec2_path := "data/aws_resources_compute.csv"%string in
  let s3_path := "data/aws_resources_S3.csv"%string in
  (forall df_ec2 df_s3,
      run = Loaded df_ec2 df_s3 <->
      exists_ "data"%string = true /\ exists_ ec2_path = true /\ exists_ s3_path = true
      /\ read_csv_ec2 ec2_path = Some df_ec2 /\ read_csv_s3 s3_path = Some df_s3)
  /\ (exists_ "data"%string = false ->
      run = Stopped "Folder 'data' not found. Please create it and add the CSV files."%string)
  /\ (exists_ "data"%string = true -> exists_ ec2_path = false ->
      run = Stopped "EC2 file not found: data/aws_resources_compute.csv"%string)
  /\ (exists_ "data"%string = true -> exists_ ec2_path = true ->
      read_csv_ec2 ec2_path = None -> run = Read_raised ec2_path)
  /\ (forall df_ec2,
        exists_ "data"%string = true -> exists_ ec2_path = true ->
        read_csv_ec2 ec2_path = Some df_ec2 -> exists_ s3_path = false ->
        run = Stopped "S3 file not found: data/aws_resources_S3.csv"%string)
  /\ (forall df_ec2,
        exists_ "data"%string = true -> exists_ ec2_path = true ->
        read_csv_ec2 ec2_path = Some df_ec2 -> exists_ s3_path = true ->
        read_csv_s3 s3_path = None -> run = Read_raised s3_path).
Proof.
  intros run ec2_path s3_path. subst run ec2_path s3_path.
  unfold data_loading, data_folder, path_join. simpl.
  destruct (exists_ "data"%string) eqn:E0;
    destruct (exists_ "data/aws_resources_compute.csv"%string) eqn:E1;
    destruct (exists_ "data/aws_resources_S3.csv"%string) eqn:E2;
    destruct (read_csv_ec2 "data/aws_resources_compute.csv"%string) as [e|] eqn:R1;
    destruct (read_csv_s3 "data/aws_resources_S3.csv"%string) as [b|] eqn:R2; simpl;
    repeat match goal with |- _ /\ _ => split end;
    try (intros; discriminate); try reflexivity;
    try (intros df1 df2; split;
         [ intros E; try discriminate; injection E as <- <-; repeat split
         | intros (A & B & C & D & F); try discriminate;
           injection D as <-; injection F as <-; reflexivity ]).
Qed.

Lemma loading_stops_at_first_missing_path_witness :
  let only_folder := fun p => String.eqb p "data"%string in
  let no_s3 := fun p => negb (String.eqb p "data/aws_resources_S3.csv"%string) in
  data_loading only_folder (fun _ => Some scenario1) (fun _ => Some scenario2)
  = Stopped "EC2 file not found: data/aws_resources_compute.csv"%string
  /\ data_loading no_s3 (fun _ => Some scenario1) (fun _ => Some scenario2)
     = Stopped "S3 file not found: data/aws_resources_S3.csv"%string
  /\ data_loading no_s3 (fun _ => None) (fun _ => Some scenario2)
     = Read_raised "data/aws_resources_compute.csv"%string
  /\ data_loading (fun _ => true) (fun _ => Some scenario1) (fun _ => None)
     = Read_raised "data/aws_resources_S3.csv"%string
  /\ data_loading (fun _ => false) (fun _ => Some scenario1) (fun _ => Some scenario2)
     = Stopped "Folder 'data' not found. Please create it and add the CSV files."%string.
Proof.
  intros only_folder no_s3.
  destruct (loading_stops_at_first_missing_path only_folder
              (fun _ => Some scenario1) (fun _ => Some scenario2)) as (_ & _ & T1 & _).
  destruct (loading_stops_at_first_missing_path no_s3
              (fun _ => Some scenario1) (fun _ => Some scenario2)) as (_ & _ & _ & _ & T2 & _).
  destruct (loading_stops_at_first_missing_path no_s3
              (fun _ => None) (fun _ => Some scenario2)) as (_ & _ & _ & T3 & _).
  destruct (loading_stops_at_first_missing_path (fun _ => true)
              (fun _ => Some scenario1) (fun _ => None)) as (_ & _ & _ & _ & _ & T4).
  destruct (loading_stops_at_first_missing_path (fun _ => false)
              (fun _ => Some scenario1) (fun _ => Some scenario2)) as (_ & T0 & _).
  exact (conj (T1 eq_refl eq_refl)
          (conj (T2 scenario1 eq_refl eq_refl eq_refl eq_refl)
          (conj (T3 eq_refl eq_refl eq_refl)
          (conj (T4 scenario1 eq_refl eq_refl eq_refl eq_refl eq_refl)
                (T0 eq_refl))))).
Defined.
